(** * Storage quota monitoring (modules/storage-monitor.js)

    A shallow embedding of the storage monitor of the extension and the
    properties of its quota oracle and admission control.

    Modelling conventions.
    - A JavaScript number is an IEEE 754 binary64 value, held as the
      rational it denotes ([Q]).  Every arithmetic operation of the source
      rounds its exact result to the nearest number with a 53-bit
      significand, the even one on a tie ([to_double]); a number that enters
      the module (a field of the host's estimate, an argument) is rounded
      the same way on entry.  The exponent is not bounded: overflow to
      Infinity, gradual underflow and NaN are outside the model.  A value
      that is not a number ([undefined], [null], NaN) is the [None] of an
      [option Q] where the source reads one from the host.
    - An [async] function is run to completion: a promise that resolves is
      [Returns], a promise that rejects (or an exception) is [Throws].
    - The console and the notification centre are a log of events, kept in
      the order in which the source emits them; what a handler emits that
      the source attaches to a promise without awaiting it is marked
      [Detached]: it happens at some time after the call.
    - The warning levels, which the source writes as the strings 'safe',
      'warning', 'critical' and 'danger', are an enumeration. *)

From Stdlib Require Import ZArith QArith Qabs Qround Qpower Qreduction.
From Stdlib Require Import Lqa Lia Bool List.
From Stdlib Require Import Ascii String DecimalString.
Import ListNotations.

(** ** Exceptions, effects and the monad of the module *)

Inductive JsError : Type :=
| TypeError (msg : string)
| DOMException (msg : string).

Inductive outcome (A : Type) : Type :=
| Returns (a : A)
| Throws (e : JsError).

Arguments Returns {A} a.
Arguments Throws {A} e.

Inductive Level : Type := safe | warning | critical | danger.

Record Notification : Type := mkNotification {
  n_type : string;
  n_iconUrl : string;
  n_title : string;
  n_message : string;
  n_priority : Z
}.

(** [NotificationCreate n] is a call of [chrome.notifications.create] with
    the options [n]; [Detached ev] is [ev] emitted by a handler that runs
    after the call that registered it. *)
Inductive event : Type :=
| ConsoleWarn (msg : string)
| ConsoleError (msg : string) (err : JsError)
| NotificationCreate (n : Notification)
| Detached (ev : event).

(** A computation emits events and then returns or throws. *)
Definition M (A : Type) : Type := (list event * outcome A)%type.

Definition ret {A} (a : A) : M A := ([], Returns a).

Definition throw {A} (e : JsError) : M A := ([], Throws e).

Definition emit (ev : event) : M unit := ([ev], Returns tt).

Definition bind {A B} (m : M A) (k : A -> M B) : M B :=
  match m with
  | (l, Returns a) => let (l', r) := k a in (l ++ l', r)
  | (l, Throws e) => (l, Throws e)
  end.

(** [try { m } catch (error) { handler error }] *)
Definition try_catch {A} (m : M A) (handler : JsError -> M A) : M A :=
  match m with
  | (l, Returns a) => (l, Returns a)
  | (l, Throws e) => let (l', r) := handler e in (l ++ l', r)
  end.

(** [await p] of a promise that has settled as [p]. *)
Definition await {A} (p : outcome A) : M A := ([], p).

(** A call of a built-in that returns or throws as [r]. *)
Definition call {A} (r : outcome A) : M A := ([], r).

Declare Scope js_scope.
Delimit Scope js_scope with js.
Notation "x <- m ;; k" := (bind m (fun x => k))
  (at level 61, m at next level, right associativity) : js_scope.
Notation "m ;;; k" := (bind m (fun _ => k))
  (at level 61, right associativity) : js_scope.

Definition events {A} (m : M A) : list event := fst m.
Definition result {A} (m : M A) : outcome A := snd m.

(** ** The host environment *)

(** What [navigator.storage.estimate()] resolves to.  A field is [None] when
    the host leaves it out (or it is not a number). *)
Record StorageEstimate : Type := mkEstimate {
  est_usage : option Q;
  est_quota : option Q
}.

(** [navigator.storage]: missing (or without [estimate]), or present with
    the settlement of the promise [estimate()] returns.  An estimate that
    is no object makes the reads of its fields throw inside the [try], which
    is [Throws] here as well. *)
Inductive StorageApi : Type :=
| StorageMissing
| StorageEstimates (settled : outcome StorageEstimate).

(** [chrome.notifications]: missing; or present, and then a call of
    [create(...)] returns a promise, with its settlement, or returns
    [undefined] (the callback form of the API), or throws. *)
Inductive NotificationsApi : Type :=
| NotificationsMissing
| NotificationsCreate (settled : outcome unit)
| NotificationsCreateNoPromise
| NotificationsCreateThrows (err : JsError).

Record Host : Type := mkHost {
  navigator_storage : StorageApi;
  chrome_notifications : NotificationsApi
}.

(** ** Numbers *)

(** [2^e] *)
Definition pow2 (e : Z) : Q := 2 ^ e.

(** [floor (log2 x)] of a positive [x]. *)
Definition ilog2 (x : Q) : Z :=
  let k := (Z.log2 (Qnum x) - Z.log2 (Zpos (Qden x)))%Z in
  if Qle_bool (pow2 k) x then k else (k - 1)%Z.

(** The nearest integer, the even one on a tie. *)
Definition rne (m : Q) : Z :=
  let f := Qfloor m in
  match Qcompare (m - inject_Z f) (1 # 2) with
  | Lt => f
  | Gt => (f + 1)%Z
  | Eq => if Z.even f then f else (f + 1)%Z
  end.

(** The nearest number with a 53-bit significand, of a positive [x]. *)
Definition round_pos (x : Q) : Q :=
  let e := (ilog2 x - 52)%Z in
  inject_Z (rne (x / pow2 e)) * pow2 e.

(** The binary64 value nearest to [x], as a reduced fraction. *)
Definition to_double (x : Q) : Q :=
  Qred match Qcompare x 0 with
       | Eq => 0
       | Gt => round_pos x
       | Lt => - round_pos (- x)
       end.

(** [a + b], [a * b] and [a / b] of the source. *)
Definition fadd (a b : Q) : Q := to_double (a + b).
Definition fmul (a b : Q) : Q := to_double (a * b).
Definition fdiv (a b : Q) : Q := to_double (a / b).

(** The largest binary64 value below 1. *)
Definition below_one : Q := 1 - pow2 (-53).

Definition is_truthy (x : Q) : bool := negb (Qeq_bool x 0).

(** [v || 0] for a numeric field read from the host. *)
Definition or_zero (v : option Q) : Q :=
  match v with
  | Some x => let d := to_double x in if is_truthy d then d else 0
  | None => 0
  end.

(** [a >= b] *)
Definition Qgeb (a b : Q) : bool := Qle_bool b a.

(** [a > b] *)
Definition Qgtb (a b : Q) : bool := negb (Qle_bool a b).

(** ** Thresholds and levels *)

Module QUOTA_THRESHOLDS.
Definition WARNING : Q := 80.
Definition CRITICAL : Q := 90.
Definition DANGER : Q := 95.
End QUOTA_THRESHOLDS.

Definition getQuotaLevel (percentUsed : Q) : Level :=
  if Qgeb percentUsed QUOTA_THRESHOLDS.DANGER then danger
  else if Qgeb percentUsed QUOTA_THRESHOLDS.CRITICAL then critical
  else if Qgeb percentUsed QUOTA_THRESHOLDS.WARNING then warning
  else safe.

Definition Level_eqb (a b : Level) : bool :=
  match a, b with
  | safe, safe | warning, warning | critical, critical | danger, danger => true
  | _, _ => false
  end.

(** The order safe < warning < critical < danger. *)
Definition level_rank (l : Level) : nat :=
  match l with safe => 0 | warning => 1 | critical => 2 | danger => 3 end.

Definition level_le (a b : Level) : Prop := (level_rank a <= level_rank b)%nat.

(** ** Number formatting *)

Definition digits_of (n : Z) : string :=
  NilZero.string_of_uint (N.to_uint (Z.to_N n)).

Fixpoint zeros (k : nat) : string :=
  match k with
  | O => EmptyString
  | S k' => String "0" (zeros k')
  end.

(** [x.toFixed(f)]: the nearest multiple of [10^-f] (the larger one on a
    tie, taken on the magnitude), written with exactly [f] decimals.  The
    exponent form that JavaScript switches to from [10^21] on is outside
    the model. *)
Definition toFixed (x : Q) (f : nat) : string :=
  let s := if Qgtb 0 x then "-"%string else EmptyString in
  let x := Qabs x in
  let n := Qfloor (x * inject_Z (10 ^ Z.of_nat f) + (1 # 2)) in
  let m := digits_of n in
  let m :=
    if Nat.eqb f 0 then m
    else
      let k := String.length m in
      let m := if Nat.leb k f then (zeros (f + 1 - k) ++ m)%string else m in
      let k := String.length m in
      let a := substring 0 (k - f) m in
      let b := substring (k - f) f m in
      (a ++ "." ++ b)%string in
  (s ++ m)%string.

(** ** Quota oracle *)

Record QuotaInfo : Type := mkQuotaInfo {
  usage : Q;
  quota : Q;
  percentUsed : Q;
  level : Level;
  usageMB : string;
  quotaMB : string
}.

Open Scope js_scope.

Definition checkStorageQuota (host : Host) : M (option QuotaInfo) :=
  match navigator_storage host with
  | StorageMissing =>
      emit (ConsoleWarn "[Storage Monitor] Storage API not available") ;;;
      ret None
  | StorageEstimates settled =>
      try_catch
        (estimate <- await settled ;;
         let usage := or_zero (est_usage estimate) in
         let quota := or_zero (est_quota estimate) in
         if Qeq_bool quota 0 then ret None
         else
           let percentUsed := fmul (fdiv usage quota) 100 in
           let level := getQuotaLevel percentUsed in
           ret (Some {| usage := usage;
                        quota := quota;
                        percentUsed := percentUsed;
                        level := level;
                        usageMB := toFixed (fdiv usage (fmul 1024 1024)) 2;
                        quotaMB := toFixed (fdiv quota (fmul 1024 1024)) 2 |}))
        (fun error =>
           emit (ConsoleError "[Storage Monitor] Error checking quota:" error) ;;;
           ret None)
  end.

Definition getStorageStatusMessage (quotaInfo : option QuotaInfo) : string :=
  match quotaInfo with
  | None => "Storage usage information not available"
  | Some qi =>
      let usageMB := usageMB qi in
      let quotaMB := quotaMB qi in
      let percentUsed := percentUsed qi in
      match level qi with
      | danger =>
          "⚠️ Storage critically full (" ++ toFixed percentUsed 1 ++ "%)! Using "
            ++ usageMB ++ "MB of " ++ quotaMB
            ++ "MB. Delete old data immediately to prevent save failures."
      | critical =>
          "⚠️ Storage almost full (" ++ toFixed percentUsed 1 ++ "%). Using "
            ++ usageMB ++ "MB of " ++ quotaMB
            ++ "MB. Consider deleting old conversations or prompts."
      | warning =>
          "Storage usage high (" ++ toFixed percentUsed 1 ++ "%). Using "
            ++ usageMB ++ "MB of " ++ quotaMB ++ "MB."
      | safe =>
          "Storage: " ++ usageMB ++ "MB / " ++ quotaMB ++ "MB ("
            ++ toFixed percentUsed 1 ++ "%)"
      end
  end%string.

(** ** Admission control *)

Record Admission : Type := mkAdmission {
  allowed : bool;
  reason : string;
  quotaInfo : option QuotaInfo
}.

Definition canPerformStorageOperation (host : Host) (estimatedSize : Q)
  : M Admission :=
  let estimatedSize := to_double estimatedSize in
  quotaInfo <- checkStorageQuota host ;;
  match quotaInfo with
  | None =>
      ret {| allowed := true;
             reason := "Quota information not available, proceeding";
             quotaInfo := None |}
  | Some qi =>
      if Level_eqb (level qi) danger then
        ret {| allowed := false;
               reason := ("Storage critically full (" ++ toFixed (percentUsed qi) 1
                            ++ "%). Delete old data before saving.")%string;
               quotaInfo := quotaInfo |}
      else
        let storage_available :=
          ret {| allowed := true;
                 reason := "Storage available";
                 quotaInfo := quotaInfo |} in
        if Qgtb estimatedSize 0 then
          let projectedUsage := fadd (usage qi) estimatedSize in
          let projectedPercent := fmul (fdiv projectedUsage (quota qi)) 100 in
          if Qgeb projectedPercent 100 then
            ret {| allowed := false;
                   reason := "Operation would exceed storage quota. Free up space before saving.";
                   quotaInfo := quotaInfo |}
          else storage_available
        else storage_available
  end.

(** The parameter defaults to 0 when the caller passes none. *)
Definition canPerformStorageOperation_default (host : Host) : M Admission :=
  canPerformStorageOperation host 0.

(** ** Warnings *)

Definition showStorageWarning (host : Host) (quotaInfo : option QuotaInfo)
  : M unit :=
  match quotaInfo with
  | None => ret tt
  | Some qi =>
      if Level_eqb (level qi) safe then ret tt
      else
        let message := getStorageStatusMessage quotaInfo in
        let options :=
          {| n_type := "basic";
             n_iconUrl := "../icons/icon128.png";
             n_title := "Storage Warning";
             n_message := message;
             n_priority := if Level_eqb (level qi) danger then 2 else 1 |} in
        match chrome_notifications host with
        | NotificationsCreate settled =>
            emit (NotificationCreate options) ;;;
            match settled with
            | Returns _ => ret tt
            | Throws _ =>
                emit (Detached (ConsoleWarn ("[Storage Monitor] " ++ message)))
            end
        | NotificationsCreateNoPromise =>
            emit (NotificationCreate options) ;;;
            throw (TypeError "Cannot read properties of undefined (reading 'catch')")
        | NotificationsCreateThrows err =>
            emit (NotificationCreate options) ;;;
            throw err
        | NotificationsMissing =>
            emit (ConsoleWarn ("[Storage Monitor] " ++ message))
        end
  end.

Definition monitorStorageQuota (host : Host) : M (option QuotaInfo) :=
  quotaInfo <- checkStorageQuota host ;;
  match quotaInfo with
  | Some qi =>
      if negb (Level_eqb (level qi) safe) then showStorageWarning host quotaInfo
      else ret tt
  | None => ret tt
  end ;;;
  ret quotaInfo.

(** ** Size estimation *)

(** A JavaScript string is a sequence of UTF-16 code units; [s.length]
    counts them. *)
Definition code_unit : Type := N.
Definition JsString : Type := list code_unit.

(** [s.length], where [s] may be [undefined]. *)
Definition js_length (s : option JsString) : M Z :=
  match s with
  | Some u => ret (Z.of_nat (List.length u))
  | None => throw (TypeError "Cannot read properties of undefined (reading 'length')")
  end.

Section Estimate.

(** The values handed to the estimator and the built-in [JSON.stringify]:
    it returns a string, returns [undefined] (for [undefined], functions
    and symbols) or throws (cyclic structures, BigInt). *)
Variable JsValue : Type.
Variable JSON_stringify : JsValue -> outcome (option JsString).

Definition estimateObjectSize (obj : JsValue) : M Z :=
  try_catch
    (jsonString <- call (JSON_stringify obj) ;;
     len <- js_length jsonString ;;
     ret (len * 2)%Z)
    (fun error =>
       emit (ConsoleError "[Storage Monitor] Error estimating object size:" error) ;;;
       ret 0%Z).

End Estimate.

(** ** Reference definitions taken from the specification *)


(** The hosts that cannot report usage and capacity, in the words of the
    specification: no Storage API, an estimate that fails, an estimate
    without a usage figure or without a capacity; a capacity of 0 counts as
    none. *)
Inductive cannot_report : Host -> Prop :=
| no_storage_api n :
    cannot_report (mkHost StorageMissing n)
| estimate_fails e n :
    cannot_report (mkHost (StorageEstimates (Throws e)) n)
| no_usage q n :
    cannot_report (mkHost (StorageEstimates (Returns (mkEstimate None q))) n)
| no_capacity u n :
    cannot_report (mkHost (StorageEstimates (Returns (mkEstimate u None))) n)
| zero_capacity u q n :
    q == 0 ->
    cannot_report (mkHost (StorageEstimates (Returns (mkEstimate u (Some q)))) n).

(** The hosts for which the source gives the unavailable result: as above,
    but a missing usage figure alone does not count. *)
Inductive lacks_capacity : Host -> Prop :=
| lacks_storage_api n :
    lacks_capacity (mkHost StorageMissing n)
| lacks_estimate e n :
    lacks_capacity (mkHost (StorageEstimates (Throws e)) n)
| lacks_quota u n :
    lacks_capacity (mkHost (StorageEstimates (Returns (mkEstimate u None))) n)
| lacks_nonzero_quota u q n :
    q == 0 ->
    lacks_capacity (mkHost (StorageEstimates (Returns (mkEstimate u (Some q)))) n).

(** [sub] occurs in [s]. *)
Definition occurs_in (sub s : string) : Prop :=
  exists pre post, s = (pre ++ sub ++ post)%string.

(** The four intervals of [getQuotaLevel]. *)
Inductive level_spec (p : Q) : Level -> Prop :=
| spec_danger : 95 <= p -> level_spec p danger
| spec_critical : 90 <= p -> p < 95 -> level_spec p critical
| spec_warning : 80 <= p -> p < 90 -> level_spec p warning
| spec_safe : p < 80 -> level_spec p safe.

(** What a returned quota info satisfies. *)
Definition consistent (qi : QuotaInfo) : Prop :=
  ~ quota qi == 0
  /\ to_double (usage qi) = usage qi
  /\ to_double (quota qi) = quota qi
  /\ percentUsed qi = fmul (fdiv (usage qi) (quota qi)) 100
  /\ level qi = getQuotaLevel (percentUsed qi)
  /\ usageMB qi = toFixed (fdiv (usage qi) (fmul 1024 1024)) 2
  /\ quotaMB qi = toFixed (fdiv (quota qi) (fmul 1024 1024)) 2.

(** [create()] fails in the call itself: it throws or returns no promise. *)
Definition create_fails_in_call (n : NotificationsApi) : Prop :=
  match n with
  | NotificationsCreateNoPromise | NotificationsCreateThrows _ => True
  | NotificationsMissing | NotificationsCreate _ => False
  end.

(** ** Sample hosts and values *)

(** A host that reports [used] bytes of [capacity]. *)
Definition reporting (used capacity : Q) (n : NotificationsApi) : Host :=
  {| navigator_storage :=
       StorageEstimates (Returns {| est_usage := Some used;
                                    est_quota := Some capacity |});
     chrome_notifications := n |}.

(** Three sample values and what [JSON.stringify] does with them. *)
Inductive SampleValue : Type :=
| SampleArray       (* [1,2,3] *)
| SampleCyclic      (* an object that contains itself *)
| SampleUndefined.  (* undefined *)

Definition units_of (s : string) : JsString :=
  List.map N_of_ascii (list_ascii_of_string s).

Definition sample_stringify (v : SampleValue) : outcome (option JsString) :=
  match v with
  | SampleArray => Returns (Some (units_of "[1,2,3]"))
  | SampleCyclic => Throws (TypeError "Converting circular structure to JSON")
  | SampleUndefined => Returns None
  end.

(** ** Reading the event log *)

(** The calls of [chrome.notifications.create] that a log holds, in order. *)
Fixpoint notifications_in (log : list event) : list Notification :=
  match log with
  | [] => []
  | NotificationCreate n :: l => n :: notifications_in l
  | _ :: l => notifications_in l
  end.

(** The event puts [msg] before the user: as the message of a notification
    or as the console warning of the module, in the call or after it. *)
Fixpoint carries (msg : string) (ev : event) : Prop :=
  match ev with
  | NotificationCreate n => n_message n = msg
  | ConsoleWarn m => m = ("[Storage Monitor] " ++ msg)%string
  | ConsoleError _ _ => False
  | Detached ev' => carries msg ev'
  end.

Arguments to_double : simpl never.
Arguments fadd : simpl never.
Arguments fmul : simpl never.
Arguments fdiv : simpl never.
Arguments toFixed : simpl never.

(** ** Basic facts *)

Lemma Qgeb_true a b : Qgeb a b = true <-> b <= a.
Proof. unfold Qgeb. apply Qle_bool_iff. Qed.

Lemma Qgeb_false a b : Qgeb a b = false <-> a < b.
Proof.
  unfold Qgeb. rewrite <- not_true_iff_false, Qle_bool_iff.
  split; [apply Qnot_le_lt | apply Qlt_not_le].
Qed.

Lemma Qgtb_true a b : Qgtb a b = true <-> b < a.
Proof.
  unfold Qgtb. rewrite negb_true_iff. apply (Qgeb_false b a).
Qed.

Lemma Qgtb_false a b : Qgtb a b = false <-> a <= b.
Proof.
  unfold Qgtb. rewrite negb_false_iff. apply Qle_bool_iff.
Qed.

Lemma Level_eqb_eq a b : Level_eqb a b = true <-> a = b.
Proof. destruct a, b; simpl; split; congruence. Qed.

Lemma Level_eqb_neq a b : Level_eqb a b = false <-> a <> b.
Proof. rewrite <- not_true_iff_false, Level_eqb_eq. tauto. Qed.

Lemma Qgeb_Qeq a a' b : a == a' -> Qgeb a b = Qgeb a' b.
Proof.
  intros H. apply eq_true_iff_eq. rewrite !Qgeb_true. now rewrite H.
Qed.

Lemma Qeq_eq_bool_refl (a b : Q) : a = b -> a == b.
Proof. intros ->. reflexivity. Qed.

(** ** Rounding to binary64 *)

Lemma pow2_pos e : 0 < pow2 e.
Proof. apply Qpower_0_lt. reflexivity. Qed.

Lemma pow2_add a b : pow2 (a + b) == pow2 a * pow2 b.
Proof. apply Qpower_plus. discriminate. Qed.

Lemma pow2_succ a : pow2 (a + 1) == 2 * pow2 a.
Proof. rewrite pow2_add. change (pow2 1) with 2. ring. Qed.

Lemma pow2_le a b : (a <= b)%Z -> pow2 a <= pow2 b.
Proof. intros H. apply Qpower_le_compat_l; [exact H | discriminate]. Qed.

Lemma pow2_lt a b : (a < b)%Z -> pow2 a < pow2 b.
Proof. intros H. apply Qpower_lt_compat_l; [exact H | reflexivity]. Qed.

Lemma pow2_Z a : (0 <= a)%Z -> pow2 a == inject_Z (2 ^ a).
Proof. intros H. unfold pow2. now rewrite Zpower_Qpower. Qed.

Lemma ilog2_spec x : 0 < x -> pow2 (ilog2 x) <= x /\ x < pow2 (ilog2 x + 1).
Proof.
  intros Hx. destruct x as [n d]. unfold ilog2. cbn [Qnum Qden].
  assert (Hn : (0 < n)%Z) by (unfold Qlt in Hx; simpl in Hx; lia).
  set (a := Z.log2 n). set (b := Z.log2 (Zpos d)).
  assert (Ha : (0 <= a)%Z) by apply Z.log2_nonneg.
  assert (Hb : (0 <= b)%Z) by apply Z.log2_nonneg.
  destruct (Z.log2_spec n Hn) as [Ha1 Ha2]. fold a in Ha1, Ha2.
  destruct (Z.log2_spec (Zpos d) eq_refl) as [Hb1 Hb2]. fold b in Hb1, Hb2.
  assert (EA : pow2 a == inject_Z (2 ^ a)) by now apply pow2_Z.
  assert (EB : pow2 b == inject_Z (2 ^ b)) by now apply pow2_Z.
  assert (Ex : (n # d) * inject_Z (Zpos d) == inject_Z n).
  { unfold Qeq, Qmult, inject_Z. simpl. rewrite Pos.mul_1_r. ring. }
  assert (A1 : pow2 a <= inject_Z n) by (rewrite EA, <- Zle_Qle; exact Ha1).
  assert (A2 : inject_Z n < 2 * pow2 a).
  { rewrite EA. change 2 with (inject_Z 2). rewrite <- inject_Z_mult, <- Zlt_Qlt.
    rewrite Z.pow_succ_r in Ha2 by exact Ha. exact Ha2. }
  assert (B1 : pow2 b <= inject_Z (Zpos d)) by (rewrite EB, <- Zle_Qle; exact Hb1).
  assert (B2 : inject_Z (Zpos d) < 2 * pow2 b).
  { rewrite EB. change 2 with (inject_Z 2). rewrite <- inject_Z_mult, <- Zlt_Qlt.
    rewrite Z.pow_succ_r in Hb2 by exact Hb. exact Hb2. }
  assert (Ek : pow2 (a - b) * pow2 b == pow2 a).
  { rewrite <- pow2_add. replace (a - b + b)%Z with a by ring. reflexivity. }
  pose proof (pow2_pos (a - b)) as Pk. pose proof (pow2_pos b) as Pb.
  pose proof (pow2_pos a) as Pa.
  set (x := n # d) in *. set (D := inject_Z (Zpos d)) in *.
  set (N := inject_Z n) in *.
  set (K := pow2 (a - b)) in *. set (A := pow2 a) in *. set (B := pow2 b) in *.
  assert (U : x < 2 * K).
  { apply Qnot_le_lt. intros C.
    assert (2 * K * B <= x * B) by nra.
    assert (x * B <= x * D) by nra. nra. }
  assert (L : K <= 2 * x).
  { apply Qnot_lt_le. intros C.
    assert (2 * x * B < K * B) by nra.
    assert (x * D < 2 * x * B) by nra. nra. }
  destruct (Qle_bool K x) eqn:E.
  - apply Qle_bool_iff in E. split; [exact E|]. rewrite pow2_succ. exact U.
  - assert (E' : x < K).
    { apply Qnot_le_lt. intros C. apply Qle_bool_iff in C. congruence. }
    replace (a - b - 1 + 1)%Z with (a - b)%Z by ring. split; [|exact E'].
    assert (S : pow2 (a - b) == 2 * pow2 (a - b - 1)).
    { rewrite <- pow2_succ. replace (a - b - 1 + 1)%Z with (a - b)%Z by ring.
      reflexivity. }
    fold K in S. lra.
Qed.

Lemma ilog2_unique x k : pow2 k <= x -> x < pow2 (k + 1) -> ilog2 x = k.
Proof.
  intros H1 H2.
  assert (Hx : 0 < x) by (pose proof (pow2_pos k); lra).
  destruct (ilog2_spec x Hx) as [S1 S2].
  destruct (Z.lt_trichotomy (ilog2 x) k) as [C | [C | C]]; [|exact C|].
  - exfalso. assert (pow2 (ilog2 x + 1) <= pow2 k) by (apply pow2_le; lia). lra.
  - exfalso. assert (pow2 (k + 1) <= pow2 (ilog2 x)) by (apply pow2_le; lia). lra.
Qed.

Lemma ilog2_comp x y : 0 < x -> x == y -> ilog2 x = ilog2 y.
Proof.
  intros Hx E. destruct (ilog2_spec x Hx) as [S1 S2].
  symmetry. apply ilog2_unique; rewrite <- E; assumption.
Qed.

Lemma ilog2_mono x y : 0 < x -> x <= y -> (ilog2 x <= ilog2 y)%Z.
Proof.
  intros Hx H. assert (Hy : 0 < y) by lra.
  destruct (ilog2_spec x Hx) as [X1 X2]. destruct (ilog2_spec y Hy) as [Y1 Y2].
  destruct (Z_le_gt_dec (ilog2 x) (ilog2 y)) as [C | C]; [exact C|].
  exfalso. assert (pow2 (ilog2 y + 1) <= pow2 (ilog2 x)) by (apply pow2_le; lia).
  lra.
Qed.

Lemma rne_comp m m' : m == m' -> rne m = rne m'.
Proof.
  intros E. unfold rne. rewrite <- (Qfloor_comp m m' E).
  assert (C : Qcompare (m - inject_Z (Qfloor m)) (1 # 2)
              = Qcompare (m' - inject_Z (Qfloor m)) (1 # 2)).
  { apply Qcompare_comp; [|reflexivity]. apply Qplus_comp; [exact E | reflexivity]. }
  now rewrite C.
Qed.

Lemma rne_Z z : rne (inject_Z z) = z.
Proof.
  unfold rne. rewrite Qfloor_Z.
  assert (C : Qcompare (inject_Z z - inject_Z z) (1 # 2) = Lt).
  { apply (proj1 (Qlt_alt _ _)). lra. }
  now rewrite C.
Qed.

Lemma rne_range m : (Qfloor m <= rne m <= Qfloor m + 1)%Z.
Proof.
  unfold rne. destruct (Qcompare _ _); [destruct (Z.even _)| |]; lia.
Qed.

Lemma rne_mono m1 m2 : m1 <= m2 -> (rne m1 <= rne m2)%Z.
Proof.
  intros H. pose proof (Qfloor_resp_le m1 m2 H) as F.
  pose proof (rne_range m1) as R1. pose proof (rne_range m2) as R2.
  destruct (Z.eq_dec (Qfloor m1) (Qfloor m2)) as [E | N]; [|lia].
  unfold rne. rewrite <- E.
  destruct (Qcompare (m1 - inject_Z (Qfloor m1)) (1 # 2)) eqn:C1;
    destruct (Qcompare (m2 - inject_Z (Qfloor m1)) (1 # 2)) eqn:C2;
    try (destruct (Z.even (Qfloor m1))); try lia; exfalso;
    try apply (proj2 (Qeq_alt _ _)) in C1; try apply (proj2 (Qlt_alt _ _)) in C1;
    try apply (proj2 (Qgt_alt _ _)) in C1;
    try apply (proj2 (Qeq_alt _ _)) in C2; try apply (proj2 (Qlt_alt _ _)) in C2;
    try apply (proj2 (Qgt_alt _ _)) in C2;
    lra.
Qed.

Lemma rne_ge z m : inject_Z z <= m -> (z <= rne m)%Z.
Proof. intros H. rewrite <- (rne_Z z). now apply rne_mono. Qed.

Lemma rne_le z m : m <= inject_Z z -> (rne m <= z)%Z.
Proof. intros H. rewrite <- (rne_Z z). now apply rne_mono. Qed.

(** The scaled significand of a positive number lies in [2^52, 2^53). *)
Lemma significand_range x :
  0 < x ->
  inject_Z (2 ^ 52) <= x / pow2 (ilog2 x - 52)
  /\ x / pow2 (ilog2 x - 52) < inject_Z (2 ^ 53).
Proof.
  intros Hx. destruct (ilog2_spec x Hx) as [S1 S2].
  pose proof (pow2_pos (ilog2 x - 52)) as P.
  assert (E1 : pow2 (ilog2 x) == inject_Z (2 ^ 52) * pow2 (ilog2 x - 52)).
  { rewrite <- (pow2_Z 52) by lia. rewrite <- pow2_add.
    replace (52 + (ilog2 x - 52))%Z with (ilog2 x) by ring. reflexivity. }
  assert (E2 : pow2 (ilog2 x + 1) == inject_Z (2 ^ 53) * pow2 (ilog2 x - 52)).
  { rewrite <- (pow2_Z 53) by lia. rewrite <- pow2_add.
    replace (53 + (ilog2 x - 52))%Z with (ilog2 x + 1)%Z by ring. reflexivity. }
  split.
  - apply Qle_shift_div_l; [exact P|]. rewrite <- E1. exact S1.
  - apply Qlt_shift_div_r; [exact P|]. rewrite <- E2. exact S2.
Qed.

Lemma round_pos_bounds x :
  0 < x ->
  pow2 (ilog2 x) <= round_pos x /\ round_pos x <= pow2 (ilog2 x + 1).
Proof.
  intros Hx. destruct (significand_range x Hx) as [M1 M2].
  pose proof (pow2_pos (ilog2 x - 52)) as P.
  assert (E1 : pow2 (ilog2 x) == inject_Z (2 ^ 52) * pow2 (ilog2 x - 52)).
  { rewrite <- (pow2_Z 52) by lia. rewrite <- pow2_add.
    replace (52 + (ilog2 x - 52))%Z with (ilog2 x) by ring. reflexivity. }
  assert (E2 : pow2 (ilog2 x + 1) == inject_Z (2 ^ 53) * pow2 (ilog2 x - 52)).
  { rewrite <- (pow2_Z 53) by lia. rewrite <- pow2_add.
    replace (53 + (ilog2 x - 52))%Z with (ilog2 x + 1)%Z by ring. reflexivity. }
  unfold round_pos. rewrite E1, E2.
  pose proof (rne_ge _ _ M1) as R1.
  assert (R2 : (rne (x / pow2 (ilog2 x - 52)) <= 2 ^ 53)%Z)
    by (apply rne_le; lra).
  rewrite Zle_Qle in R1, R2.
  split; apply Qmult_le_compat_r; lra.
Qed.

Lemma round_pos_pos x : 0 < x -> 0 < round_pos x.
Proof.
  intros Hx. destruct (round_pos_bounds x Hx) as [B _].
  pose proof (pow2_pos (ilog2 x)). lra.
Qed.

Lemma round_pos_comp x y : 0 < x -> x == y -> round_pos x == round_pos y.
Proof.
  intros Hx E. unfold round_pos. rewrite <- (ilog2_comp x y Hx E).
  rewrite (rne_comp (x / pow2 (ilog2 x - 52)) (y / pow2 (ilog2 x - 52)))
    by (apply Qdiv_comp; [exact E | reflexivity]).
  reflexivity.
Qed.

Lemma round_pos_mono x y : 0 < x -> x <= y -> round_pos x <= round_pos y.
Proof.
  intros Hx H. assert (Hy : 0 < y) by lra.
  pose proof (ilog2_mono x y Hx H) as K.
  destruct (Z.eq_dec (ilog2 x) (ilog2 y)) as [E | N].
  - unfold round_pos. rewrite <- E.
    pose proof (pow2_pos (ilog2 x - 52)) as P.
    apply Qmult_le_compat_r; [|lra]. rewrite <- Zle_Qle. apply rne_mono.
    apply Qmult_le_compat_r; [exact H|]. apply Qlt_le_weak, Qinv_lt_0_compat, P.
  - destruct (round_pos_bounds x Hx) as [_ B1].
    destruct (round_pos_bounds y Hy) as [B2 _].
    assert (pow2 (ilog2 x + 1) <= pow2 (ilog2 y)) by (apply pow2_le; lia).
    lra.
Qed.

(** A number with a 53-bit significand is its own rounding. *)
Lemma round_pos_fixes r e :
  (2 ^ 52 <= r < 2 ^ 53)%Z ->
  round_pos (inject_Z r * pow2 e) == inject_Z r * pow2 e.
Proof.
  intros [R1 R2]. pose proof (pow2_pos e) as P.
  rewrite Zle_Qle in R1. rewrite Zlt_Qlt in R2.
  assert (K : ilog2 (inject_Z r * pow2 e) = (e + 52)%Z).
  { apply ilog2_unique.
    - rewrite Z.add_comm, pow2_add, (pow2_Z 52) by lia.
      apply Qmult_le_compat_r; lra.
    - replace (e + 52 + 1)%Z with (53 + e)%Z by ring.
      rewrite pow2_add, (pow2_Z 53) by lia.
      apply Qmult_lt_compat_r; lra. }
  unfold round_pos. rewrite K. replace (e + 52 - 52)%Z with e by ring.
  rewrite (rne_comp (inject_Z r * pow2 e / pow2 e) (inject_Z r)).
  - now rewrite rne_Z.
  - field. lra.
Qed.

Lemma round_pos_idem x : 0 < x -> round_pos (round_pos x) == round_pos x.
Proof.
  intros Hx. destruct (significand_range x Hx) as [M1 M2].
  set (e := (ilog2 x - 52)%Z) in *.
  pose proof (rne_ge _ _ M1) as R1.
  assert (R2 : (rne (x / pow2 e) <= 2 ^ 53)%Z) by (apply rne_le; lra).
  unfold round_pos at 2 3. fold e. set (r := rne (x / pow2 e)) in *.
  destruct (Z.eq_dec r (2 ^ 53)) as [E | N].
  - assert (Ey : inject_Z r * pow2 e == inject_Z (2 ^ 52) * pow2 (e + 1)).
    { rewrite E, pow2_succ. change (inject_Z (2 ^ 53)) with (2 * inject_Z (2 ^ 52)).
      ring. }
    assert (Hp : 0 < inject_Z r * pow2 e).
    { pose proof (pow2_pos e). rewrite E.
      apply Qmult_lt_0_compat; [reflexivity | assumption]. }
    transitivity (round_pos (inject_Z (2 ^ 52) * pow2 (e + 1))).
    + apply round_pos_comp; assumption.
    + rewrite round_pos_fixes by lia. symmetry. exact Ey.
  - apply round_pos_fixes. lia.
Qed.

Lemma to_double_zero x : x == 0 -> to_double x = 0.
Proof.
  intros E. unfold to_double. apply (proj1 (Qeq_alt _ _)) in E. now rewrite E.
Qed.

Lemma to_double_pos x : 0 < x -> to_double x == round_pos x.
Proof.
  intros H. unfold to_double. apply (proj1 (Qgt_alt _ _)) in H. rewrite H.
  apply Qred_correct.
Qed.

Lemma to_double_neg x : x < 0 -> to_double x == - round_pos (- x).
Proof.
  intros H. unfold to_double. apply (proj1 (Qlt_alt _ _)) in H. rewrite H.
  apply Qred_correct.
Qed.

Lemma to_double_comp x y : x == y -> to_double x = to_double y.
Proof.
  intros E. unfold to_double. apply Qred_complete.
  rewrite <- (Qcompare_comp x y E 0 0 (Qeq_refl 0)).
  destruct (Qcompare x 0) eqn:C.
  - reflexivity.
  - apply (proj2 (Qlt_alt _ _)) in C.
    apply Qopp_comp, round_pos_comp; [lra | now rewrite E].
  - apply (proj2 (Qgt_alt _ _)) in C. apply round_pos_comp; assumption.
Qed.

Lemma to_double_sign_pos x : 0 < x -> 0 < to_double x.
Proof.
  intros H. rewrite (to_double_pos x H). now apply round_pos_pos.
Qed.

Lemma to_double_sign_neg x : x < 0 -> to_double x < 0.
Proof.
  intros H. rewrite (to_double_neg x H).
  assert (0 < round_pos (- x)) by (apply round_pos_pos; lra). lra.
Qed.

Lemma to_double_eq_0 x : to_double x == 0 <-> x == 0.
Proof.
  split.
  - intros E. destruct (Q_dec x 0) as [[H | H] | H]; [| |exact H]; exfalso.
    + pose proof (to_double_sign_neg x H). lra.
    + pose proof (to_double_sign_pos x H). lra.
  - intros E. now rewrite (to_double_zero x E).
Qed.

Lemma to_double_mono x y : x <= y -> to_double x <= to_double y.
Proof.
  intros H.
  destruct (Q_dec x 0) as [[Hx | Hx] | Hx]; destruct (Q_dec y 0) as [[Hy | Hy] | Hy];
    try (exfalso; lra).
  - rewrite (to_double_neg x Hx), (to_double_neg y Hy).
    assert (round_pos (- y) <= round_pos (- x)) by (apply round_pos_mono; lra).
    lra.
  - pose proof (to_double_sign_neg x Hx). pose proof (to_double_sign_pos y Hy). lra.
  - pose proof (to_double_sign_neg x Hx). rewrite (to_double_zero y Hy). lra.
  - rewrite (to_double_pos x Hx), (to_double_pos y Hy).
    now apply round_pos_mono.
  - pose proof (to_double_sign_pos y Hy). rewrite (to_double_zero x Hx). lra.
  - rewrite (to_double_zero x Hx), (to_double_zero y Hy). lra.
Qed.

Lemma to_double_idem_Qeq x : to_double (to_double x) == to_double x.
Proof.
  destruct (Q_dec x 0) as [[H | H] | H].
  - pose proof (to_double_sign_neg x H) as S.
    rewrite (to_double_neg _ S).
    assert (P : 0 < round_pos (- x)) by (apply round_pos_pos; lra).
    rewrite (round_pos_comp (- to_double x) (round_pos (- x))).
    + rewrite round_pos_idem by lra. now rewrite (to_double_neg x H).
    + lra.
    + rewrite (to_double_neg x H). ring.
  - pose proof (to_double_sign_pos x H) as S.
    rewrite (to_double_pos _ S).
    rewrite (round_pos_comp (to_double x) (round_pos x) S (to_double_pos x H)).
    rewrite round_pos_idem by exact H. symmetry. now apply to_double_pos.
  - rewrite (to_double_zero x H). reflexivity.
Qed.

Lemma to_double_reduced x : Qred (to_double x) = to_double x.
Proof.
  unfold to_double. apply Qred_complete, Qred_correct.
Qed.

Lemma to_double_idem x : to_double (to_double x) = to_double x.
Proof.
  transitivity (Qred (to_double x)); [|apply to_double_reduced].
  unfold to_double at 1. apply Qred_complete.
  transitivity (to_double (to_double x)); [|apply to_double_idem_Qeq].
  symmetry. apply Qred_correct.
Qed.

Lemma to_double_below_one z : to_double z < 1 -> to_double z <= below_one.
Proof.
  intros H.
  assert (P : below_one == 9007199254740991 # 9007199254740992) by reflexivity.
  destruct (Qlt_le_dec z 1) as [H1 | H1].
  - destruct (Qlt_le_dec z (1 # 2)) as [H2 | H2].
    + pose proof (to_double_mono z (1 # 2) (Qlt_le_weak _ _ H2)) as M.
      change (to_double (1 # 2)) with (1 # 2) in M. rewrite P. 
      apply (Qle_trans _ _ _ M). discriminate.
    + assert (Hz : 0 < z) by lra.
      assert (K : ilog2 z = (-1)%Z) by (apply ilog2_unique; assumption).
      rewrite (to_double_pos z Hz) in *. unfold round_pos in *. rewrite K in *.
      change (-1 - 52)%Z with (-53)%Z in *.
      set (r := rne (z / pow2 (-53))) in *.
      assert (R : (r < 2 ^ 53)%Z).
      { rewrite Zlt_Qlt. apply Qnot_le_lt. intros C.
        assert (inject_Z (2 ^ 53) * pow2 (-53) == 1) by reflexivity.
        pose proof (pow2_pos (-53)).
        assert (inject_Z (2 ^ 53) * pow2 (-53) <= inject_Z r * pow2 (-53))
          by (apply Qmult_le_compat_r; lra).
        lra. }
      assert (R' : (r <= 2 ^ 53 - 1)%Z) by lia. rewrite Zle_Qle in R'.
      assert (E : below_one == inject_Z (2 ^ 53 - 1) * pow2 (-53)) by reflexivity.
      rewrite E. pose proof (pow2_pos (-53)).
      apply Qmult_le_compat_r; lra.
  - exfalso. pose proof (to_double_mono 1 z H1) as M.
    change (to_double 1) with 1 in M. lra.
Qed.

Lemma to_double_0 : to_double 0 = 0.
Proof. reflexivity. Qed.

Lemma to_double_1 : to_double 1 = 1.
Proof. reflexivity. Qed.

Lemma to_double_100 : to_double 100 = 100.
Proof. reflexivity. Qed.

Lemma to_double_le c x : to_double c = c -> x <= c -> to_double x <= c.
Proof. intros E H. rewrite <- E. now apply to_double_mono. Qed.

Lemma to_double_ge c x : to_double c = c -> c <= x -> c <= to_double x.
Proof. intros E H. rewrite <- E. now apply to_double_mono. Qed.

Lemma fdiv_comp a a' b b' : a == a' -> b == b' -> fdiv a b = fdiv a' b'.
Proof. intros Ea Eb. apply to_double_comp. now rewrite Ea, Eb. Qed.

Lemma fmul_comp a a' b b' : a == a' -> b == b' -> fmul a b = fmul a' b'.
Proof. intros Ea Eb. apply to_double_comp. now rewrite Ea, Eb. Qed.

Lemma fadd_comp a a' b b' : a == a' -> b == b' -> fadd a b = fadd a' b'.
Proof. intros Ea Eb. apply to_double_comp. now rewrite Ea, Eb. Qed.

Lemma Qinv_neg q : q < 0 -> / q < 0.
Proof.
  intros H. assert (E : q * / q == 1) by (apply Qmult_inv_r; lra).
  apply Qnot_le_lt. intros C. nra.
Qed.

Lemma fdiv_mono_pos a b q : 0 < q -> a <= b -> fdiv a q <= fdiv b q.
Proof.
  intros Hq H. apply to_double_mono. unfold Qdiv.
  pose proof (Qinv_lt_0_compat q Hq). nra.
Qed.

Lemma fdiv_anti_neg a b q : q < 0 -> a <= b -> fdiv b q <= fdiv a q.
Proof.
  intros Hq H. apply to_double_mono. unfold Qdiv.
  pose proof (Qinv_neg q Hq). nra.
Qed.

Lemma fdiv_anti_den a q1 q2 : 0 <= a -> 0 < q1 -> q1 <= q2 -> fdiv a q2 <= fdiv a q1.
Proof.
  intros Ha H1 H2. apply to_double_mono.
  apply Qle_shift_div_l; [lra|].
  assert (E : a / q2 * q1 == a * (q1 / q2)) by (field; lra).
  rewrite E.
  assert (q1 / q2 <= 1) by (apply Qle_shift_div_r; lra).
  nra.
Qed.

Lemma percent_mono a b : a <= b -> fmul a 100 <= fmul b 100.
Proof. intros H. apply to_double_mono. lra. Qed.

(** On a binary64 value, [x * 100 >= 100] is [x >= 1]. *)
Lemma percent_reaches_100 z :
  Qgeb (fmul (to_double z) 100) 100 = Qgeb (to_double z) 1.
Proof.
  apply eq_true_iff_eq. rewrite !Qgeb_true. split; intros H.
  - apply Qnot_lt_le. intros C. apply to_double_below_one in C.
    assert (M : fmul (to_double z) 100 <= fmul below_one 100)
      by now apply percent_mono.
    assert (L : fmul below_one 100 < 100) by reflexivity.
    lra.
  - apply Qle_trans with (to_double 100); [rewrite to_double_100; lra|].
    apply to_double_mono. lra.
Qed.

(** ** Reading a number from the host *)

Lemma or_zero_Qeq x : or_zero (Some x) == to_double x.
Proof.
  unfold or_zero, is_truthy. destruct (Qeq_bool (to_double x) 0) eqn:E; simpl.
  - apply Qeq_bool_eq in E. symmetry. exact E.
  - reflexivity.
Qed.

Lemma or_zero_nonzero x : ~ x == 0 -> or_zero (Some x) = to_double x.
Proof.
  intros H. unfold or_zero, is_truthy.
  destruct (Qeq_bool (to_double x) 0) eqn:E; simpl; [|reflexivity].
  apply Qeq_bool_eq in E. apply (proj1 (to_double_eq_0 x)) in E. contradiction.
Qed.

Lemma or_zero_double v : to_double (or_zero v) = or_zero v.
Proof.
  destruct v as [x|]; [|reflexivity]. unfold or_zero, is_truthy.
  destruct (Qeq_bool (to_double x) 0); simpl; [reflexivity | apply to_double_idem].
Qed.

Lemma or_zero_mono x y : x <= y -> or_zero (Some x) <= or_zero (Some y).
Proof. intros H. rewrite !or_zero_Qeq. now apply to_double_mono. Qed.

(** ** Levels *)

Ltac by_threshold p t :=
  let E := fresh "E" in
  destruct (Qgeb p t) eqn:E;
  [apply Qgeb_true in E | apply Qgeb_false in E].

Lemma getQuotaLevel_spec p : level_spec p (getQuotaLevel p).
Proof.
  unfold getQuotaLevel.
  by_threshold p QUOTA_THRESHOLDS.DANGER; [now constructor|].
  by_threshold p QUOTA_THRESHOLDS.CRITICAL; [now constructor|].
  by_threshold p QUOTA_THRESHOLDS.WARNING; now constructor.
Qed.

Lemma level_spec_inj p l1 l2 : level_spec p l1 -> level_spec p l2 -> l1 = l2.
Proof.
  intros H1 H2. destruct H1; destruct H2; try reflexivity; exfalso; lra.
Qed.

Lemma getQuotaLevel_iff p l : getQuotaLevel p = l <-> level_spec p l.
Proof.
  split.
  - intros <-. apply getQuotaLevel_spec.
  - apply level_spec_inj, getQuotaLevel_spec.
Qed.

Lemma not_danger_below p : getQuotaLevel p <> danger <-> p < 95.
Proof.
  split.
  - intros H. destruct (getQuotaLevel_spec p); try lra. congruence.
  - intros H E. apply getQuotaLevel_iff in E. inversion E. lra.
Qed.

(** ** The quota oracle always returns *)

Lemma checkStorageQuota_returns host :
  exists log info, checkStorageQuota host = (log, Returns info).
Proof.
  unfold checkStorageQuota.
  destruct (navigator_storage host) as [|[e|err]]; simpl.
  - eauto.
  - destruct (Qeq_bool (or_zero (est_quota e)) 0); simpl; eauto.
  - eauto.
Qed.

Lemma checkStorageQuota_some host log qi :
  checkStorageQuota host = (log, Returns (Some qi)) ->
  log = [] /\ consistent qi
  /\ exists e, navigator_storage host = StorageEstimates (Returns e)
             /\ usage qi = or_zero (est_usage e)
             /\ quota qi = or_zero (est_quota e).
Proof.
  unfold checkStorageQuota.
  destruct (navigator_storage host) as [|[e|err]]; simpl; try discriminate.
  destruct (Qeq_bool (or_zero (est_quota e)) 0) eqn:E; simpl; try discriminate.
  intros H. injection H as <- <-. split; [reflexivity|]. split.
  - unfold consistent; cbn [usage quota percentUsed level usageMB quotaMB].
    split; [intros Hq; apply Qeq_bool_iff in Hq; congruence|].
    split; [apply or_zero_double|]. split; [apply or_zero_double|].
    repeat split.
  - exists e. auto.
Qed.

Lemma checkStorageQuota_none_iff host :
  (exists log, checkStorageQuota host = (log, Returns None)) <-> lacks_capacity host.
Proof.
  split.
  - intros [log H]. destruct host as [st n]. unfold checkStorageQuota in H.
    simpl in H. destruct st as [|[[u q]|err]]; simpl in H.
    + constructor.
    + destruct q as [q|]; [|constructor].
      destruct (Qeq_bool (or_zero (Some q)) 0) eqn:E; simpl in H; try discriminate.
      constructor. apply Qeq_bool_eq in E. rewrite or_zero_Qeq in E.
      now apply to_double_eq_0.
    + constructor.
  - intros H. destruct H as [n|e n|u n|u q n Hq]; unfold checkStorageQuota;
      cbn [navigator_storage est_quota];
      try (simpl; eauto; fail).
    assert (E : Qeq_bool (or_zero (Some q)) 0 = true).
    { apply Qeq_bool_iff. rewrite or_zero_Qeq. now apply to_double_eq_0. }
    unfold await, bind, try_catch. cbn [est_quota]. rewrite E. simpl. eauto.
Qed.

Lemma checkStorageQuota_reporting u q n :
  ~ q == 0 ->
  exists qi,
    checkStorageQuota (reporting u q n) = ([], Returns (Some qi))
    /\ usage qi == to_double u /\ quota qi = to_double q
    /\ percentUsed qi = fmul (fdiv (to_double u) (to_double q)) 100
    /\ level qi = getQuotaLevel (percentUsed qi)
    /\ consistent qi.
Proof.
  intros Hq.
  assert (Eq : or_zero (Some q) = to_double q) by now apply or_zero_nonzero.
  assert (E : Qeq_bool (or_zero (Some q)) 0 = false).
  { rewrite Eq. apply not_true_iff_false. rewrite Qeq_bool_iff, to_double_eq_0.
    exact Hq. }
  assert (Hrun : exists qi,
             checkStorageQuota (reporting u q n) = ([], Returns (Some qi))
             /\ usage qi = or_zero (Some u) /\ quota qi = or_zero (Some q)).
  { unfold checkStorageQuota, reporting, await, bind, try_catch.
    cbn [navigator_storage est_quota est_usage]. rewrite E.
    eexists. split; [reflexivity|]. split; reflexivity. }
  destruct Hrun as (qi & Hrun & Hu & Hquota). exists qi.
  destruct (checkStorageQuota_some _ _ _ Hrun) as (_ & Hc & _).
  pose proof Hc as (_ & _ & _ & Hp & Hl & _).
  split; [exact Hrun|]. split; [rewrite Hu; apply or_zero_Qeq|].
  split; [now rewrite Hquota|]. split; [|split; [exact Hl | exact Hc]].
  rewrite Hp, Hquota, Eq. apply fmul_comp; [|reflexivity].
  rewrite Hu.
  rewrite (fdiv_comp (or_zero (Some u)) (to_double u) (to_double q) (to_double q)
             (or_zero_Qeq u) (Qeq_refl _)).
  reflexivity.
Qed.

(** ** Admission *)

(** The decision once the oracle has answered. *)
Lemma canPerformStorageOperation_unavailable host log s :
  checkStorageQuota host = (log, Returns None) ->
  canPerformStorageOperation host s
  = (log, Returns {| allowed := true;
                     reason := "Quota information not available, proceeding";
                     quotaInfo := None |}).
Proof.
  intros H. unfold canPerformStorageOperation. rewrite H. simpl.
  now rewrite app_nil_r.
Qed.

Lemma canPerformStorageOperation_available host log qi s :
  checkStorageQuota host = (log, Returns (Some qi)) ->
  exists r, canPerformStorageOperation host s = (log, Returns r)
            /\ quotaInfo r = Some qi
            /\ allowed r =
               negb (Level_eqb (level qi) danger)
               && negb (Qgtb (to_double s) 0
                        && Qgeb (fmul (fdiv (fadd (usage qi) (to_double s))
                                         (quota qi)) 100) 100).
Proof.
  intros H. unfold canPerformStorageOperation. rewrite H. simpl.
  destruct (Level_eqb (level qi) danger); simpl.
  - rewrite app_nil_r. eauto.
  - destruct (Qgtb (to_double s) 0); simpl; [|rewrite app_nil_r; eauto].
    destruct (Qgeb (fmul (fdiv (fadd (usage qi) (to_double s)) (quota qi)) 100) 100);
      simpl; rewrite app_nil_r; eauto.
Qed.


(** The sum of rule (3) is a rounded one: with 2^53 bytes used of 2^54 and
    a request of 2^53 - 1 bytes, usage plus size is below the capacity in
    exact arithmetic, the sum of the source is the capacity, and the
    request is denied. *)
Remark projection_is_rounded :
  inject_Z (2 ^ 53) + inject_Z (2 ^ 53 - 1) < inject_Z (2 ^ 54)
  /\ fadd (inject_Z (2 ^ 53)) (inject_Z (2 ^ 53 - 1)) == inject_Z (2 ^ 54)
  /\ exists r,
      canPerformStorageOperation
        (reporting (inject_Z (2 ^ 53)) (inject_Z (2 ^ 54)) NotificationsMissing)
        (inject_Z (2 ^ 53 - 1))
      = ([], Returns r)
      /\ allowed r = false.
Proof.
  split; [reflexivity|]. split; [reflexivity|].
  eexists. split; [vm_compute; reflexivity | reflexivity].
Qed.

(** C2. In a quota state whose level is danger the operation is denied,
    whatever size is requested (zero, positive, or any other number). *)
Theorem danger_denies_every_size (host : Host) (log : list event)
  (qi : QuotaInfo) (estimatedBytes : Q) :
  checkStorageQuota host = (log, Returns (Some qi)) ->
  level qi = danger ->
  exists r, canPerformStorageOperation host estimatedBytes = (log, Returns r)
            /\ allowed r = false.
Proof.
  intros H Hd.
  destruct (canPerformStorageOperation_available host log qi estimatedBytes H)
    as (r & Hr & _ & Ha).
  exists r. split; [exact Hr|]. rewrite Ha, Hd. reflexivity.
Qed.

Lemma danger_denies_every_size_witness :
  exists r, canPerformStorageOperation (reporting 96 100 NotificationsMissing) 1
            = ([], Returns r)
            /\ allowed r = false.
Proof.
  eapply danger_denies_every_size; reflexivity.
Defined.

(** ** Classification *)

(** C3. When the host reports a usage and a capacity other than 0,
    [checkStorageQuota] returns a quota info for them whose [percentUsed]
    is [usage / quota * 100] as the source computes it, and whose level is
    safe below 80, warning from 80 up to (not including) 90, critical from
    90 up to (not including) 95 and danger from 95 on; so 80, 90 and 95
    each belong to one level only: warning, critical and danger. *)
Theorem checkStorageQuota_classifies (used capacity : Q) (n : NotificationsApi) :
  ~ capacity == 0 ->
  exists qi,
    checkStorageQuota (reporting used capacity n) = ([], Returns (Some qi))
    /\ usage qi == to_double used /\ quota qi == to_double capacity
    /\ percentUsed qi = fmul (fdiv (usage qi) (quota qi)) 100
    /\ (level qi = safe <-> percentUsed qi < 80)
    /\ (level qi = warning <-> 80 <= percentUsed qi /\ percentUsed qi < 90)
    /\ (level qi = critical <-> 90 <= percentUsed qi /\ percentUsed qi < 95)
    /\ (level qi = danger <-> 95 <= percentUsed qi)
    /\ getQuotaLevel 80 = warning
    /\ getQuotaLevel 90 = critical
    /\ getQuotaLevel 95 = danger.
Proof.
  intros Hc.
  destruct (checkStorageQuota_reporting used capacity n Hc)
    as (qi & Hrun & Hu & Hq & _ & Hl & (_ & _ & _ & Hp & _)).
  exists qi. split; [exact Hrun|]. split; [exact Hu|].
  split; [now rewrite Hq|]. split; [exact Hp|]. rewrite Hl.
  set (p := percentUsed qi).
  repeat split; intros;
    repeat match goal with
           | H : getQuotaLevel _ = _ |- _ =>
               apply getQuotaLevel_iff in H; inversion H; clear H
           end;
    try reflexivity; try lra;
    apply getQuotaLevel_iff; constructor; lra.
Qed.

Lemma checkStorageQuota_classifies_witness :
  ~ 100 == 0 /\
  exists qi,
    checkStorageQuota (reporting 85 100 NotificationsMissing)
    = ([], Returns (Some qi))
    /\ percentUsed qi = fmul (fdiv 85 100) 100
    /\ level qi = warning.
Proof.
  assert (H : ~ 100 == 0) by (intros H; discriminate H).
  split; [exact H|].
  destruct (checkStorageQuota_classifies 85 100 NotificationsMissing H)
    as (qi & Hrun & _ & _ & Hp & _ & Hw & _).
  exists qi. split; [exact Hrun|].
  assert (E : qi = {| usage := 85; quota := 100; percentUsed := 85;
                      level := warning; usageMB := "0.00"; quotaMB := "0.00" |}).
  { vm_compute in Hrun. now injection Hrun as <-. }
  split; [rewrite E; reflexivity|].
  apply Hw. rewrite E. split; [discriminate | reflexivity].
Defined.

(** The source's arithmetic on two reports: 57 of 100 gives
    56.99999999999999, and a figure just below 80% of a capacity near 2^53
    is rounded up to 80. *)
Remark percentUsed_is_rounded :
  fmul (fdiv 57 100) 100 == 8022036836253695 # 140737488355328
  /\ 7205759403792792 / 9007199254740991 * 100 < 80
  /\ fmul (fdiv 7205759403792792 9007199254740991) 100 == 80.
Proof. repeat split. Qed.

(** C8. [getQuotaLevel] gives every percentage exactly one level (the four
    intervals cover every percentage and do not overlap), and a larger
    percentage never gets a lower level in the order
    safe < warning < critical < danger. *)
Theorem getQuotaLevel_total_monotone (p1 p2 : Q) :
  (exists! l, getQuotaLevel p1 = l)
  /\ (exists! l, level_spec p1 l)
  /\ (p1 <= p2 -> level_le (getQuotaLevel p1) (getQuotaLevel p2)).
Proof.
  split; [|split].
  - exists (getQuotaLevel p1). split; [reflexivity | auto].
  - exists (getQuotaLevel p1). split; [apply getQuotaLevel_spec|].
    intros l Hl. apply getQuotaLevel_iff. exact Hl.
  - intros H. unfold level_le.
    destruct (getQuotaLevel_spec p1); destruct (getQuotaLevel_spec p2);
      simpl; try lia; exfalso; lra.
Qed.

Lemma getQuotaLevel_total_monotone_witness :
  85 <= 92 /\ level_le (getQuotaLevel 85) (getQuotaLevel 92)
  /\ getQuotaLevel 85 = warning /\ getQuotaLevel 92 = critical.
Proof.
  assert (H : 85 <= 92) by discriminate.
  split; [exact H|]. split.
  - exact (proj2 (proj2 (getQuotaLevel_total_monotone 85 92)) H).
  - split; reflexivity.
Defined.

(** The same figures compare equal whatever fraction denotes them. *)
Lemma getQuotaLevel_Qeq p1 p2 : p1 == p2 -> getQuotaLevel p1 = getQuotaLevel p2.
Proof.
  intros H. apply getQuotaLevel_iff.
  destruct (getQuotaLevel_spec p2); constructor; lra.
Qed.

Lemma getQuotaLevel_mono p1 p2 :
  p1 <= p2 -> level_le (getQuotaLevel p1) (getQuotaLevel p2).
Proof.
  intros H. unfold level_le.
  destruct (getQuotaLevel_spec p1); destruct (getQuotaLevel_spec p2);
    simpl; try lia; exfalso; lra.
Qed.

(** ** Unavailable quota information *)

Lemma showStorageWarning_silent host info :
  info = None \/ (exists qi, info = Some qi /\ level qi = safe) ->
  showStorageWarning host info = ([], Returns tt).
Proof.
  intros [-> | (qi & -> & Hs)]; [reflexivity|].
  unfold showStorageWarning. now rewrite Hs.
Qed.

Lemma monitorStorageQuota_unavailable host log :
  checkStorageQuota host = (log, Returns None) ->
  monitorStorageQuota host = (log, Returns None).
Proof.
  intros H. unfold monitorStorageQuota. rewrite H. simpl. now rewrite app_nil_r.
Qed.

(** C4, as the code has it. [checkStorageQuota] never throws; it returns
    the unavailable result exactly for the hosts without Storage API, with a
    failing estimate, or with an estimate whose capacity is missing or 0
    (a missing usage figure alone is read as 0 bytes and gives a quota
    info); and that result is no failure for the callers: the admission
    check then allows the operation and the monitor returns normally. *)
Theorem unavailable_iff_lacks_capacity (host : Host) :
  (exists log info, checkStorageQuota host = (log, Returns info))
  /\ ((exists log, checkStorageQuota host = (log, Returns None))
      <-> lacks_capacity host)
  /\ (lacks_capacity host ->
      (forall s, exists log r,
          canPerformStorageOperation host s = (log, Returns r)
          /\ allowed r = true /\ quotaInfo r = None)
      /\ exists log, monitorStorageQuota host = (log, Returns None)).
Proof.
  split; [apply checkStorageQuota_returns|].
  split; [apply checkStorageQuota_none_iff|].
  intros Hc. apply checkStorageQuota_none_iff in Hc. destruct Hc as [log H].
  split.
  - intros s. exists log. eexists. split.
    + apply canPerformStorageOperation_unavailable. exact H.
    + simpl. auto.
  - exists log. now apply monitorStorageQuota_unavailable.
Qed.

Lemma unavailable_iff_lacks_capacity_witness :
  lacks_capacity (reporting 5 0 NotificationsMissing)
  /\ (exists log, checkStorageQuota (reporting 5 0 NotificationsMissing)
                  = (log, Returns None))
  /\ exists log r,
      canPerformStorageOperation (reporting 5 0 NotificationsMissing) 1000
      = (log, Returns r) /\ allowed r = true /\ quotaInfo r = None.
Proof.
  assert (H : lacks_capacity (reporting 5 0 NotificationsMissing)).
  { apply lacks_nonzero_quota. reflexivity. }
  destruct (unavailable_iff_lacks_capacity (reporting 5 0 NotificationsMissing))
    as (_ & Hiff & Hcallers).
  split; [exact H|]. split.
  - apply Hiff. exact H.
  - apply (proj1 (Hcallers H) 1000).
Defined.

(** C4, as the claim has it, fails. A host whose estimate holds a capacity
    but no usage figure cannot report the usage, and yet the result is not
    the unavailable one: it is a quota info with 0 bytes used. *)
Lemma unavailable_iff_cannot_report_counterexample :
  cannot_report
    {| navigator_storage :=
         StorageEstimates (Returns {| est_usage := None; est_quota := Some 100 |});
       chrome_notifications := NotificationsMissing |}
  /\ exists qi,
      checkStorageQuota
        {| navigator_storage :=
             StorageEstimates (Returns {| est_usage := None; est_quota := Some 100 |});
           chrome_notifications := NotificationsMissing |}
      = ([], Returns (Some qi))
      /\ usage qi = 0 /\ quota qi = 100 /\ level qi = safe.
Proof.
  split; [apply no_usage|].
  eexists. split; [vm_compute; reflexivity|]. repeat split.
Qed.

(** ** Admission is antitone in the size *)

(** C10. For one host (one quota state), when a request of size [s] is
    allowed, every request of a size between 0 and [s] is allowed too. *)
Theorem admission_antitone (host : Host) (s s' : Q) (log : list event)
  (r : Admission) :
  0 <= s' -> s' <= s ->
  canPerformStorageOperation host s = (log, Returns r) ->
  allowed r = true ->
  exists r', canPerformStorageOperation host s' = (log, Returns r')
             /\ allowed r' = true.
Proof.
  intros H0 Hs Hr Ha.
  destruct (checkStorageQuota_returns host) as (l & [qi|] & H).
  - destruct (canPerformStorageOperation_available host l qi s H)
      as (r1 & Hr1 & _ & Ha1).
    rewrite Hr in Hr1. injection Hr1 as <- <-.
    destruct (canPerformStorageOperation_available host log qi s' H)
      as (r' & Hr' & _ & Ha').
    exists r'. split; [exact Hr'|]. rewrite Ha'. rewrite Ha in Ha1.
    symmetry in Ha1. apply andb_true_iff in Ha1. destruct Ha1 as [Hl Hp].
    rewrite Hl. simpl. apply negb_true_iff. apply negb_true_iff in Hp.
    apply andb_false_iff. apply andb_false_iff in Hp.
    apply negb_true_iff, Level_eqb_neq in Hl.
    destruct (checkStorageQuota_some host log qi H)
      as (_ & (Hq & Hud & _ & Hpc & Hlv & _) & _).
    rewrite Hlv in Hl. apply not_danger_below in Hl. rewrite Hpc in Hl.
    rewrite Qgtb_false, Qgeb_false. rewrite Qgtb_false, Qgeb_false in Hp.
    assert (S0 : 0 <= to_double s').
    { rewrite <- to_double_0. now apply to_double_mono. }
    assert (SS : to_double s' <= to_double s) by now apply to_double_mono.
    destruct (Qlt_le_dec 0 (to_double s')) as [Pos | Npos]; [|now left].
    right. destruct Hp as [Hp | Hp]; [lra|].
    destruct (Q_dec (quota qi) 0) as [[Neg | Posq] | Z]; [| |contradiction].
    + apply Qle_lt_trans with (fmul (fdiv (usage qi) (quota qi)) 100); [|lra].
      apply percent_mono. rewrite <- Hud at 2. unfold fadd.
      rewrite <- (to_double_idem (usage qi)).
      apply fdiv_anti_neg; [exact Neg|]. apply to_double_mono. rewrite Hud. lra.
    + apply Qle_lt_trans
        with (fmul (fdiv (fadd (usage qi) (to_double s)) (quota qi)) 100);
        [|exact Hp].
      apply percent_mono, fdiv_mono_pos; [exact Posq|].
      apply to_double_mono. lra.
  - rewrite (canPerformStorageOperation_unavailable host l s H) in Hr.
    injection Hr as <- <-.
    eexists. split.
    + apply canPerformStorageOperation_unavailable. exact H.
    + reflexivity.
Qed.

Lemma admission_antitone_witness :
  0 <= 10 /\ 10 <= 40 /\
  exists r', canPerformStorageOperation (reporting 50 100 NotificationsMissing) 10
             = ([], Returns r')
             /\ allowed r' = true.
Proof.
  assert (H0 : 0 <= 10) by discriminate.
  assert (Hs : 10 <= 40) by discriminate.
  split; [exact H0|]. split; [exact Hs|].
  eapply (admission_antitone (reporting 50 100 NotificationsMissing) 40 10);
    [exact H0 | exact Hs | vm_compute; reflexivity | reflexivity].
Defined.

(** ** Size estimation *)

(** C5. When the record serializes to a string, the estimate is the length
    of that string, in code units, times 2. *)
Theorem estimateObjectSize_serialized (JsValue : Type)
  (JSON_stringify : JsValue -> outcome (option JsString))
  (obj : JsValue) (jsonString : JsString) :
  JSON_stringify obj = Returns (Some jsonString) ->
  estimateObjectSize JsValue JSON_stringify obj
  = ([], Returns (Z.of_nat (List.length jsonString) * 2)%Z).
Proof.
  intros H. unfold estimateObjectSize. rewrite H. reflexivity.
Qed.

Lemma estimateObjectSize_serialized_witness :
  estimateObjectSize SampleValue sample_stringify SampleArray
  = ([], Returns 14%Z).
Proof.
  exact (estimateObjectSize_serialized SampleValue sample_stringify SampleArray
           (units_of "[1,2,3]") eq_refl).
Defined.

Lemma estimateObjectSize_failure (JsValue : Type)
  (JSON_stringify : JsValue -> outcome (option JsString)) (obj : JsValue) :
  (forall s, JSON_stringify obj <> Returns (Some s)) ->
  exists err,
    estimateObjectSize JsValue JSON_stringify obj
    = ([ConsoleError "[Storage Monitor] Error estimating object size:" err],
       Returns 0%Z).
Proof.
  intros H. unfold estimateObjectSize.
  destruct (JSON_stringify obj) as [[s|]|err].
  - exfalso. apply (H s). reflexivity.
  - eexists. reflexivity.
  - eexists. reflexivity.
Qed.

(** C9. When the record cannot be serialized to a string, the estimate is 0
    (an error is logged, nothing is thrown); and a request of that size is
    allowed in every quota state whose level is below danger, since the
    projection of rule (3) is only made for a positive size. *)
Theorem failed_estimate_is_allowed (JsValue : Type)
  (JSON_stringify : JsValue -> outcome (option JsString)) (obj : JsValue)
  (host : Host) (log : list event) (qi : QuotaInfo) :
  (forall s, JSON_stringify obj <> Returns (Some s)) ->
  checkStorageQuota host = (log, Returns (Some qi)) ->
  (level_rank (level qi) < level_rank danger)%nat ->
  exists elog size r,
    estimateObjectSize JsValue JSON_stringify obj = (elog, Returns size)
    /\ size = 0%Z
    /\ canPerformStorageOperation host (inject_Z size) = (log, Returns r)
    /\ allowed r = true.
Proof.
  intros Hf H Hl.
  destruct (estimateObjectSize_failure JsValue JSON_stringify obj Hf) as [err He].
  destruct (canPerformStorageOperation_available host log qi (inject_Z 0) H)
    as (r & Hr & _ & Ha).
  eexists. exists 0%Z, r. split; [exact He|]. split; [reflexivity|].
  split; [exact Hr|]. rewrite Ha.
  change (to_double (inject_Z 0)) with 0.
  destruct (level qi); simpl in Hl; try lia; reflexivity.
Qed.

Lemma failed_estimate_is_allowed_witness :
  exists elog size r,
    estimateObjectSize SampleValue sample_stringify SampleCyclic
    = (elog, Returns size)
    /\ size = 0%Z
    /\ canPerformStorageOperation (reporting 94 100 NotificationsMissing)
         (inject_Z size) = ([], Returns r)
    /\ allowed r = true.
Proof.
  eapply (failed_estimate_is_allowed SampleValue sample_stringify SampleCyclic
            (reporting 94 100 NotificationsMissing)).
  - intros s. discriminate.
  - vm_compute. reflexivity.
  - simpl. lia.
Defined.

(** ** The monitor *)

(** What the monitor does at a level above safe, by the notification API. *)
Lemma monitorStorageQuota_unfold host log qi :
  checkStorageQuota host = (log, Returns (Some qi)) ->
  level qi <> safe ->
  monitorStorageQuota host =
  let message := getStorageStatusMessage (Some qi) in
  let options :=
    {| n_type := "basic";
       n_iconUrl := "../icons/icon128.png";
       n_title := "Storage Warning";
       n_message := message;
       n_priority := if Level_eqb (level qi) danger then 2 else 1 |} in
  match chrome_notifications host with
  | NotificationsMissing =>
      ([ConsoleWarn ("[Storage Monitor] " ++ message)], Returns (Some qi))
  | NotificationsCreate (Returns _) =>
      ([NotificationCreate options], Returns (Some qi))
  | NotificationsCreate (Throws _) =>
      ([NotificationCreate options;
        Detached (ConsoleWarn ("[Storage Monitor] " ++ message))],
       Returns (Some qi))
  | NotificationsCreateNoPromise =>
      ([NotificationCreate options],
       Throws (TypeError "Cannot read properties of undefined (reading 'catch')"))
  | NotificationsCreateThrows err =>
      ([NotificationCreate options], Throws err)
  end.
Proof.
  intros H Hl.
  destruct (checkStorageQuota_some host log qi H) as (-> & _).
  apply Level_eqb_neq in Hl.
  unfold monitorStorageQuota. rewrite H. cbn [bind]. rewrite Hl. cbn [negb].
  unfold showStorageWarning. rewrite Hl.
  destruct (chrome_notifications host) as [|[[]|err]| |err]; reflexivity.
Qed.

Lemma monitorStorageQuota_silent host log info :
  checkStorageQuota host = (log, Returns info) ->
  (forall qi, info = Some qi -> level qi = safe) ->
  monitorStorageQuota host = (log, Returns info)
  /\ notifications_in log = [].
Proof.
  intros H Hs. unfold monitorStorageQuota. rewrite H. destruct info as [qi|].
  - cbn [bind]. rewrite (Hs qi eq_refl). simpl. rewrite app_nil_r.
    destruct (checkStorageQuota_some host log qi H) as (-> & _).
    split; reflexivity.
  - simpl. rewrite app_nil_r. split; [reflexivity|].
    unfold checkStorageQuota in H.
    destruct (navigator_storage host) as [|[e|err]]; simpl in H.
    + injection H as <-. reflexivity.
    + destruct (Qeq_bool (or_zero (est_quota e)) 0); simpl in H;
        [injection H as <-; reflexivity | discriminate].
    + injection H as <-. reflexivity.
Qed.

(** C6, on the code. With 92 bytes used of 100 (level critical) and a
    [chrome.notifications.create] that returns no promise, the monitor
    does not return: after the call of [create] it throws the TypeError of
    reading [catch] of [undefined]; so run after a write, it turns the
    write into a failure. *)
Theorem monitorStorageQuota_raises_without_promise :
  exists log,
    monitorStorageQuota (reporting 92 100 NotificationsCreateNoPromise)
    = (log, Throws (TypeError "Cannot read properties of undefined (reading 'catch')"))
    /\ notifications_in log <> []
    /\ forall written : nat,
        result (monitorStorageQuota (reporting 92 100 NotificationsCreateNoPromise)
                ;;; ret written)
        <> Returns written.
Proof.
  eexists. split; [vm_compute; reflexivity|]. split; [discriminate|].
  intros written. vm_compute. discriminate.
Qed.

(** ** Text produced by the module *)

Lemma append_assoc (a b c : string) : ((a ++ b) ++ c = a ++ b ++ c)%string.
Proof.
  induction a as [|ch a IH]; simpl; [reflexivity | now rewrite IH].
Qed.

Lemma occurs_in_here (sub post : string) : occurs_in sub (sub ++ post).
Proof. exists EmptyString, post. reflexivity. Qed.

Lemma occurs_in_append_r (sub a s : string) :
  occurs_in sub s -> occurs_in sub (a ++ s).
Proof.
  intros (pre & post & ->). exists (a ++ pre)%string, post.
  now rewrite append_assoc.
Qed.

Ltac find_occurrence :=
  repeat first [ apply occurs_in_here | apply occurs_in_append_r ].

(** C7, as the code has it. A quota info that [checkStorageQuota] returns
    holds the raw figures (usage, quota, the percentage and its level) and
    also two formatted texts, the usage and the quota in MiB with two
    decimals; and the module formats the user-facing sentence itself:
    [getStorageStatusMessage] yields a sentence that contains both texts and
    the percentage with one decimal, and a fixed sentence when there is no
    quota info. *)
Theorem quota_status_is_formatted (host : Host) (log : list event)
  (qi : QuotaInfo) :
  checkStorageQuota host = (log, Returns (Some qi)) ->
  percentUsed qi = fmul (fdiv (usage qi) (quota qi)) 100
  /\ level qi = getQuotaLevel (percentUsed qi)
  /\ usageMB qi = toFixed (fdiv (usage qi) (fmul 1024 1024)) 2
  /\ quotaMB qi = toFixed (fdiv (quota qi) (fmul 1024 1024)) 2
  /\ occurs_in (usageMB qi) (getStorageStatusMessage (Some qi))
  /\ occurs_in (quotaMB qi) (getStorageStatusMessage (Some qi))
  /\ occurs_in (toFixed (percentUsed qi) 1) (getStorageStatusMessage (Some qi))
  /\ getStorageStatusMessage None = "Storage usage information not available"%string.
Proof.
  intros H.
  destruct (checkStorageQuota_some host log qi H)
    as (_ & (_ & _ & _ & Hp & Hl & Hu & Hq) & _).
  repeat (split; [assumption|]).
  unfold getStorageStatusMessage.
  repeat split; destruct (level qi); find_occurrence.
Qed.

Lemma quota_status_is_formatted_witness :
  exists qi,
    checkStorageQuota (reporting 1048576 104857600 NotificationsMissing)
    = ([], Returns (Some qi))
    /\ usageMB qi = toFixed (fdiv (usage qi) (fmul 1024 1024)) 2
    /\ occurs_in (usageMB qi) (getStorageStatusMessage (Some qi)).
Proof.
  eexists. split; [vm_compute; reflexivity|].
  destruct (quota_status_is_formatted
              (reporting 1048576 104857600 NotificationsMissing) [] _ eq_refl)
    as (_ & _ & Hu & _ & Ho & _).
  split; [exact Hu | exact Ho].
Defined.

(** C7, as the claim has it, fails. With 1 MiB used of 100 MiB the value
    that [checkStorageQuota] exposes carries the formatted texts "1.00" and
    "100.00" next to the raw figures, and [getStorageStatusMessage] produces
    the sentence shown to the user. *)
Lemma raw_tuple_only_counterexample :
  exists qi,
    checkStorageQuota (reporting 1048576 104857600 NotificationsMissing)
    = ([], Returns (Some qi))
    /\ usageMB qi = "1.00"%string
    /\ quotaMB qi = "100.00"%string
    /\ getStorageStatusMessage (Some qi)
       = "Storage: 1.00MB / 100.00MB (1.0%)"%string.
Proof.
  eexists. split; [vm_compute; reflexivity|]. repeat split.
Qed.

(** ** Further properties of the oracle *)

(** Rounding does not take a percentage below a threshold it has reached. *)
Lemma threshold_kept x t :
  fmul (to_double (t / 100)) 100 == t ->
  t <= x * 100 -> t <= fmul (to_double x) 100.
Proof.
  intros E H. rewrite <- E. apply percent_mono, to_double_mono.
  apply Qle_shift_div_r; [reflexivity | exact H].
Qed.

Lemma level_of_rounded_percent x :
  level_le (getQuotaLevel (x * 100)) (getQuotaLevel (fmul (to_double x) 100)).
Proof.
  pose proof (threshold_kept x 80 (Qeq_refl _)) as T80.
  pose proof (threshold_kept x 90 (Qeq_refl _)) as T90.
  pose proof (threshold_kept x 95 (Qeq_refl _)) as T95.
  unfold level_le.
  destruct (getQuotaLevel_spec (x * 100));
    destruct (getQuotaLevel_spec (fmul (to_double x) 100));
    simpl; try lia; exfalso;
    try specialize (T80 ltac:(lra)); try specialize (T90 ltac:(lra));
    try specialize (T95 ltac:(lra)); lra.
Qed.

(** X1. Rounding never hides a threshold that the figures have reached:
    the level returned is at least the level of the exact percentage of
    the returned usage and quota; a store whose usage is exactly at or
    above 95% of its capacity is at level danger. *)
Theorem level_at_least_exact (used capacity : Q) (n : NotificationsApi) :
  ~ capacity == 0 ->
  exists qi,
    checkStorageQuota (reporting used capacity n) = ([], Returns (Some qi))
    /\ level_le (getQuotaLevel (usage qi / quota qi * 100)) (level qi)
    /\ (95 <= usage qi / quota qi * 100 -> level qi = danger).
Proof.
  intros Hq.
  destruct (checkStorageQuota_reporting used capacity n Hq)
    as (qi & Hrun & _ & _ & _ & Hl & (_ & _ & _ & Hp & _)).
  exists qi. split; [exact Hrun|].
  assert (L : level_le (getQuotaLevel (usage qi / quota qi * 100)) (level qi)).
  { rewrite Hl, Hp. apply level_of_rounded_percent. }
  split; [exact L|]. intros H.
  assert (E : getQuotaLevel (usage qi / quota qi * 100) = danger)
    by (apply getQuotaLevel_iff; now constructor).
  rewrite E in L. unfold level_le in L. destruct (level qi); simpl in L; try lia.
  reflexivity.
Qed.

Lemma level_at_least_exact_witness :
  exists qi,
    checkStorageQuota (reporting 1900 2000 NotificationsMissing)
    = ([], Returns (Some qi))
    /\ level qi = danger.
Proof.
  assert (Hq : ~ 2000 == 0) by (intros H; discriminate H).
  destruct (level_at_least_exact 1900 2000 NotificationsMissing Hq)
    as (qi & Hrun & _ & Hd).
  exists qi. split; [exact Hrun|]. apply Hd.
  assert (E : qi = {| usage := 1900; quota := 2000; percentUsed := 95;
                      level := danger; usageMB := "0.00"; quotaMB := "0.00" |}).
  { vm_compute in Hrun. now injection Hrun as <-. }
  rewrite E. discriminate.
Defined.

(** X2. With a positive capacity, a larger usage never gives a lower
    level. *)
Theorem level_monotone_in_usage (u1 u2 capacity : Q) (n : NotificationsApi) :
  0 < capacity -> u1 <= u2 ->
  exists qi1 qi2,
    checkStorageQuota (reporting u1 capacity n) = ([], Returns (Some qi1))
    /\ checkStorageQuota (reporting u2 capacity n) = ([], Returns (Some qi2))
    /\ level_le (level qi1) (level qi2).
Proof.
  intros Hq Hu.
  destruct (checkStorageQuota_reporting u1 capacity n)
    as (qi1 & H1 & _ & _ & P1 & L1 & _); [lra|].
  destruct (checkStorageQuota_reporting u2 capacity n)
    as (qi2 & H2 & _ & _ & P2 & L2 & _); [lra|].
  exists qi1, qi2. split; [exact H1|]. split; [exact H2|].
  rewrite L1, L2, P1, P2. apply getQuotaLevel_mono, percent_mono.
  apply fdiv_mono_pos; [now apply to_double_sign_pos | now apply to_double_mono].
Qed.

Lemma level_monotone_in_usage_witness :
  exists qi1 qi2,
    checkStorageQuota (reporting 70 100 NotificationsMissing)
    = ([], Returns (Some qi1))
    /\ checkStorageQuota (reporting 91 100 NotificationsMissing)
       = ([], Returns (Some qi2))
    /\ level_le (level qi1) (level qi2).
Proof.
  apply (level_monotone_in_usage 70 91 100 NotificationsMissing);
    [reflexivity | discriminate].
Defined.

(** X3. With a usage that is not negative, a larger capacity never gives a
    higher level. *)
Theorem level_antitone_in_capacity (used q1 q2 : Q) (n : NotificationsApi) :
  0 <= used -> 0 < q1 -> q1 <= q2 ->
  exists qi1 qi2,
    checkStorageQuota (reporting used q1 n) = ([], Returns (Some qi1))
    /\ checkStorageQuota (reporting used q2 n) = ([], Returns (Some qi2))
    /\ level_le (level qi2) (level qi1).
Proof.
  intros Hu Hq1 Hq.
  assert (Hq2 : 0 < q2) by lra.
  destruct (checkStorageQuota_reporting used q1 n)
    as (qi1 & H1 & _ & _ & P1 & L1 & _); [lra|].
  destruct (checkStorageQuota_reporting used q2 n)
    as (qi2 & H2 & _ & _ & P2 & L2 & _); [lra|].
  exists qi1, qi2. split; [exact H1|]. split; [exact H2|].
  rewrite L1, L2, P1, P2. apply getQuotaLevel_mono, percent_mono.
  apply fdiv_anti_den.
  - rewrite <- to_double_0. now apply to_double_mono.
  - now apply to_double_sign_pos.
  - now apply to_double_mono.
Qed.

Lemma level_antitone_in_capacity_witness :
  exists qi1 qi2,
    checkStorageQuota (reporting 90 100 NotificationsMissing)
    = ([], Returns (Some qi1))
    /\ checkStorageQuota (reporting 90 200 NotificationsMissing)
       = ([], Returns (Some qi2))
    /\ level_le (level qi2) (level qi1).
Proof.
  apply (level_antitone_in_capacity 90 100 200 NotificationsMissing);
    [discriminate | reflexivity | discriminate].
Defined.

(** X4. When the usage lies between 0 and a positive capacity, the
    percentage lies between 0 and 100, as the source's comment on the field
    says. *)
Theorem percentUsed_in_range (used capacity : Q) (n : NotificationsApi) :
  0 <= used -> used <= capacity -> 0 < capacity ->
  exists qi,
    checkStorageQuota (reporting used capacity n) = ([], Returns (Some qi))
    /\ 0 <= percentUsed qi /\ percentUsed qi <= 100.
Proof.
  intros H0 Hu Hq.
  destruct (checkStorageQuota_reporting used capacity n)
    as (qi & Hrun & _ & _ & Hp & _); [lra|].
  exists qi. split; [exact Hrun|]. rewrite Hp.
  assert (U0 : 0 <= to_double used)
    by (rewrite <- to_double_0; now apply to_double_mono).
  assert (UQ : to_double used <= to_double capacity) by now apply to_double_mono.
  assert (Q0 : 0 < to_double capacity) by now apply to_double_sign_pos.
  assert (D0 : 0 <= fdiv (to_double used) (to_double capacity)).
  { rewrite <- to_double_0. apply to_double_mono.
    apply Qle_shift_div_l; [exact Q0 | lra]. }
  assert (D1 : fdiv (to_double used) (to_double capacity) <= 1).
  { rewrite <- to_double_1. apply to_double_mono.
    apply Qle_shift_div_r; [exact Q0 | lra]. }
  split.
  - apply (to_double_ge 0); [reflexivity | lra].
  - apply (to_double_le 100); [reflexivity | lra].
Qed.

Lemma percentUsed_in_range_witness :
  exists qi,
    checkStorageQuota (reporting 30 120 NotificationsMissing)
    = ([], Returns (Some qi))
    /\ 0 <= percentUsed qi /\ percentUsed qi <= 100.
Proof.
  apply (percentUsed_in_range 30 120 NotificationsMissing);
    [discriminate | discriminate | reflexivity].
Defined.

(** X5. An estimate without a usage figure, or with a usage of 0, still
    gives a quota info when the capacity is not 0: 0 bytes used, 0 percent,
    level safe. *)
Theorem missing_usage_is_safe (u : option Q) (capacity : Q) (n : NotificationsApi) :
  or_zero u == 0 -> ~ capacity == 0 ->
  exists qi,
    checkStorageQuota
      {| navigator_storage :=
           StorageEstimates (Returns {| est_usage := u; est_quota := Some capacity |});
         chrome_notifications := n |}
    = ([], Returns (Some qi))
    /\ usage qi == 0 /\ percentUsed qi == 0 /\ level qi = safe.
Proof.
  intros Hu Hq.
  assert (E : Qeq_bool (or_zero (Some capacity)) 0 = false).
  { apply not_true_iff_false. rewrite Qeq_bool_iff, or_zero_Qeq, to_double_eq_0.
    exact Hq. }
  unfold checkStorageQuota, await, bind, try_catch.
  cbn [navigator_storage est_quota est_usage]. rewrite E.
  eexists. split; [reflexivity|]. cbn [usage quota percentUsed level].
  assert (Ep : fmul (fdiv (or_zero u) (or_zero (Some capacity))) 100 = 0).
  { rewrite (fdiv_comp (or_zero u) 0 _ (or_zero (Some capacity)) Hu (Qeq_refl _)).
    assert (Z : fdiv 0 (or_zero (Some capacity)) = 0).
    { unfold fdiv. apply to_double_zero. unfold Qdiv. ring. }
    rewrite Z. reflexivity. }
  split; [exact Hu|]. rewrite Ep. split; reflexivity.
Qed.

Lemma missing_usage_is_safe_witness :
  exists qi,
    checkStorageQuota
      {| navigator_storage :=
           StorageEstimates (Returns {| est_usage := None; est_quota := Some 5000 |});
         chrome_notifications := NotificationsMissing |}
    = ([], Returns (Some qi))
    /\ usage qi == 0 /\ percentUsed qi == 0 /\ level qi = safe.
Proof.
  apply (missing_usage_is_safe None 5000 NotificationsMissing).
  - reflexivity.
  - intros H. discriminate H.
Defined.

(** ** Further properties of the admission check *)

(** X6. A request whose size is 0 or less (0 is what the parameter defaults
    to) is decided by the danger gate alone: it is allowed exactly when the
    level is not danger, however full the store is below that. *)
Theorem nonpositive_size_is_the_danger_gate (host : Host) (log : list event)
  (qi : QuotaInfo) (s : Q) :
  checkStorageQuota host = (log, Returns (Some qi)) ->
  s <= 0 ->
  (exists r, canPerformStorageOperation host s = (log, Returns r)
             /\ (allowed r = true <-> level qi <> danger))
  /\ (exists r, canPerformStorageOperation_default host = (log, Returns r)
                /\ (allowed r = true <-> level qi <> danger)).
Proof.
  intros H Hs.
  assert (G : forall x, x <= 0 ->
              exists r, canPerformStorageOperation host x = (log, Returns r)
                        /\ (allowed r = true <-> level qi <> danger)).
  { intros x Hx.
    destruct (canPerformStorageOperation_available host log qi x H)
      as (r & Hr & _ & Ha).
    exists r. split; [exact Hr|]. rewrite Ha.
    assert (Hd : to_double x <= 0)
      by (rewrite <- to_double_0; now apply to_double_mono).
    apply Qgtb_false in Hd. rewrite Hd. simpl. rewrite andb_true_r.
    rewrite negb_true_iff. apply Level_eqb_neq. }
  split; [apply G; exact Hs|].
  unfold canPerformStorageOperation_default. apply G. discriminate.
Qed.

Lemma nonpositive_size_is_the_danger_gate_witness :
  exists r, canPerformStorageOperation_default (reporting 94 100 NotificationsMissing)
            = ([], Returns r)
            /\ allowed r = true.
Proof.
  destruct (nonpositive_size_is_the_danger_gate
              (reporting 94 100 NotificationsMissing) [] _ 0 eq_refl)
    as (_ & r & Hr & Ha); [discriminate|].
  exists r. split; [exact Hr|]. apply Ha. vm_compute. discriminate.
Defined.

(** X7. An allowed request leaves room, also in exact arithmetic: with a
    positive capacity, when a request is allowed the returned usage is
    below 95% of the returned quota and, for a positive size, usage plus
    size is strictly below the quota.  Rounding never lets through a
    request that fills the capacity. *)
Theorem allowed_leaves_room (used capacity : Q) (n : NotificationsApi) (s : Q) :
  0 < capacity ->
  exists r qi,
    canPerformStorageOperation (reporting used capacity n) s = ([], Returns r)
    /\ quotaInfo r = Some qi
    /\ (allowed r = true ->
        100 * usage qi < 95 * quota qi
        /\ (to_double s <= 0 \/ usage qi + to_double s < quota qi)).
Proof.
  intros Hq.
  destruct (checkStorageQuota_reporting used capacity n)
    as (qi & Hrun & _ & Hquota & _ & Hl & (_ & _ & Hqd & Hp & _)); [lra|].
  destruct (canPerformStorageOperation_available _ _ _ s Hrun) as (r & Hr & Hi & Ha).
  exists r, qi. split; [exact Hr|]. split; [exact Hi|]. intros Hall.
  rewrite Ha in Hall. apply andb_true_iff in Hall. destruct Hall as [A B].
  apply negb_true_iff, Level_eqb_neq in A. apply negb_true_iff in B.
  assert (Q0 : 0 < quota qi) by (rewrite Hquota; now apply to_double_sign_pos).
  split.
  - apply Qnot_le_lt. intros C. apply A.
    assert (L : level_le (getQuotaLevel (usage qi / quota qi * 100)) (level qi)).
    { rewrite Hl, Hp. apply level_of_rounded_percent. }
    assert (E : getQuotaLevel (usage qi / quota qi * 100) = danger).
    { apply getQuotaLevel_iff. constructor.
      assert (X : usage qi / quota qi * 100 == 100 * usage qi / quota qi)
        by (field; lra).
      rewrite X. apply Qle_shift_div_l; [exact Q0 | exact C]. }
    rewrite E in L. unfold level_le in L. destruct (level qi); simpl in L; try lia.
    reflexivity.
  - apply andb_false_iff in B. rewrite Qgtb_false, Qgeb_false in B.
    destruct B as [B | B]; [now left|].
    destruct (Qlt_le_dec (usage qi + to_double s) (quota qi)) as [C | C];
      [now right|].
    exfalso.
    assert (F : 1 <= fdiv (fadd (usage qi) (to_double s)) (quota qi)).
    { rewrite <- to_double_1. apply to_double_mono.
      apply Qle_shift_div_l; [exact Q0|].
      rewrite Qmult_1_l. rewrite <- Hqd. now apply to_double_mono. }
    assert (G : 100 <= fmul (fdiv (fadd (usage qi) (to_double s)) (quota qi)) 100).
    { apply (to_double_ge 100); [reflexivity | lra]. }
    lra.
Qed.

Lemma allowed_leaves_room_witness :
  exists r qi,
    canPerformStorageOperation (reporting 50 100 NotificationsMissing) 30
    = ([], Returns r)
    /\ quotaInfo r = Some qi
    /\ allowed r = true
    /\ usage qi + to_double 30 < quota qi.
Proof.
  assert (Hq : 0 < 100) by reflexivity.
  destruct (allowed_leaves_room 50 100 NotificationsMissing 30 Hq)
    as (r & qi & Hr & Hi & Hroom).
  exists r, qi. split; [exact Hr|]. split; [exact Hi|].
  assert (Ha : allowed r = true).
  { vm_compute in Hr. now injection Hr as <-. }
  split; [exact Ha|].
  destruct (Hroom Ha) as [_ [C | C]]; [exfalso; apply C; reflexivity | exact C].
Defined.

(** X9. With a positive capacity, a request that is allowed at some usage
    is allowed at every smaller usage: freeing space never turns an allowed
    request into a denied one. *)
Theorem admission_antitone_in_usage (u1 u2 capacity : Q) (n : NotificationsApi)
  (s : Q) (r2 : Admission) :
  0 < capacity -> u1 <= u2 ->
  canPerformStorageOperation (reporting u2 capacity n) s = ([], Returns r2) ->
  allowed r2 = true ->
  exists r1,
    canPerformStorageOperation (reporting u1 capacity n) s = ([], Returns r1)
    /\ allowed r1 = true.
Proof.
  intros Hq Hu H2 Ha2.
  destruct (checkStorageQuota_reporting u1 capacity n)
    as (qi1 & R1 & U1 & Q1 & P1 & L1 & _); [lra|].
  destruct (checkStorageQuota_reporting u2 capacity n)
    as (qi2 & R2 & U2 & Q2 & P2 & L2 & _); [lra|].
  destruct (canPerformStorageOperation_available _ _ _ s R2) as (r & Hr & _ & Ha).
  rewrite H2 in Hr. injection Hr as <-.
  destruct (canPerformStorageOperation_available _ _ _ s R1) as (r1 & Hr1 & _ & Ha1).
  exists r1. split; [exact Hr1|]. rewrite Ha1. rewrite Ha in Ha2.
  apply andb_true_iff in Ha2. destruct Ha2 as [A B].
  apply negb_true_iff, Level_eqb_neq in A. apply negb_true_iff in B.
  assert (Q0 : 0 < to_double capacity) by now apply to_double_sign_pos.
  assert (UU : to_double u1 <= to_double u2) by now apply to_double_mono.
  apply andb_true_iff. split.
  - apply negb_true_iff, Level_eqb_neq. rewrite L1. rewrite L2 in A.
    apply not_danger_below. apply not_danger_below in A.
    apply Qle_lt_trans with (percentUsed qi2); [|exact A].
    rewrite P1, P2. apply percent_mono, fdiv_mono_pos; assumption.
  - apply negb_true_iff. apply andb_false_iff in B. apply andb_false_iff.
    destruct B as [B | B]; [now left|]. right.
    rewrite Qgeb_false in *.
    apply Qle_lt_trans
      with (fmul (fdiv (fadd (usage qi2) (to_double s)) (quota qi2)) 100);
      [|exact B].
    rewrite Q1, Q2. apply percent_mono, fdiv_mono_pos; [exact Q0|].
    apply to_double_mono. rewrite U1, U2. lra.
Qed.

Lemma admission_antitone_in_usage_witness :
  exists r1,
    canPerformStorageOperation (reporting 10 100 NotificationsMissing) 30
    = ([], Returns r1)
    /\ allowed r1 = true.
Proof.
  eapply (admission_antitone_in_usage 10 60 100 NotificationsMissing 30);
    [reflexivity | discriminate | vm_compute; reflexivity | reflexivity].
Defined.

(** ** Byte counts below 2^53 *)

(** An integer of at most 53 bits is a binary64 value. *)
Lemma to_double_Z n : (0 <= n <= 2 ^ 53)%Z -> to_double (inject_Z n) == inject_Z n.
Proof.
  intros [H0 H1].
  destruct (Z.eq_dec n 0) as [-> | N0]; [reflexivity|].
  destruct (Z.eq_dec n (2 ^ 53)) as [-> | N1]; [reflexivity|].
  assert (Hn : (0 < n)%Z) by lia.
  assert (Hq : 0 < inject_Z n) by (change 0 with (inject_Z 0); now rewrite <- Zlt_Qlt).
  rewrite (to_double_pos _ Hq).
  destruct (Z.log2_spec n Hn) as [L1 L2]. set (k := Z.log2 n) in *.
  assert (K0 : (0 <= k)%Z) by apply Z.log2_nonneg.
  assert (K1 : (k <= 52)%Z).
  { destruct (Z_le_gt_dec k 52) as [C | C]; [exact C|]. exfalso.
    assert ((2 ^ 53 <= 2 ^ k)%Z) by (apply Z.pow_le_mono_r; lia). lia. }
  set (r := (n * 2 ^ (52 - k))%Z).
  assert (E : inject_Z n == inject_Z r * pow2 (k - 52)).
  { unfold r. rewrite inject_Z_mult, <- (pow2_Z (52 - k)) by lia.
    rewrite <- Qmult_assoc, <- pow2_add.
    replace (52 - k + (k - 52))%Z with 0%Z by ring. change (pow2 0) with 1. ring. }
  assert (R : (2 ^ 52 <= r < 2 ^ 53)%Z).
  { unfold r. replace 52%Z with (k + (52 - k))%Z at 1 by ring.
    replace 53%Z with (Z.succ k + (52 - k))%Z by ring.
    rewrite !Z.pow_add_r by lia.
    assert (0 < 2 ^ (52 - k))%Z by (apply Z.pow_pos_nonneg; lia).
    split; [apply Z.mul_le_mono_nonneg_r | apply Z.mul_lt_mono_pos_r]; lia. }
  rewrite (round_pos_comp _ _ Hq E), (round_pos_fixes r (k - 52) R).
  symmetry. exact E.
Qed.

(** For byte counts of at most 53 bits the quotient reaches 1 exactly when
    the numerator reaches the denominator. *)
Lemma quotient_reaches_1 x q :
  (0 <= x)%Z -> (0 < q <= 2 ^ 53)%Z ->
  (1 <= fdiv (inject_Z x) (inject_Z q) <-> (q <= x)%Z).
Proof.
  intros Hx [Hq0 Hq1].
  assert (Q0 : 0 < inject_Z q) by (change 0 with (inject_Z 0); now rewrite <- Zlt_Qlt).
  split.
  - intros H. destruct (Z_le_gt_dec q x) as [C | C]; [exact C|]. exfalso.
    assert (B : inject_Z x / inject_Z q <= below_one).
    { apply Qle_shift_div_r; [exact Q0|].
      assert (X : inject_Z x + 1 <= inject_Z q).
      { change 1 with (inject_Z 1). rewrite <- inject_Z_plus, <- Zle_Qle. lia. }
      assert (Qb : inject_Z q <= inject_Z (2 ^ 53)) by now rewrite <- Zle_Qle.
      assert (P : below_one == 1 - 1 / inject_Z (2 ^ 53)) by reflexivity.
      rewrite P.
      assert (D : (1 - 1 / inject_Z (2 ^ 53)) * inject_Z q
                  == inject_Z q - inject_Z q / inject_Z (2 ^ 53))
        by (field; discriminate).
      rewrite D.
      assert (inject_Z q / inject_Z (2 ^ 53) <= 1)
        by (apply Qle_shift_div_r; [reflexivity | lra]).
      lra. }
    assert (M : fdiv (inject_Z x) (inject_Z q) <= below_one).
    { apply (to_double_le below_one); [reflexivity | exact B]. }
    assert (below_one < 1) by reflexivity. lra.
  - intros C. apply (to_double_ge 1); [reflexivity|].
    apply Qle_shift_div_l; [exact Q0|]. rewrite Qmult_1_l. now rewrite <- Zle_Qle.
Qed.

(** The projection test of the source on byte counts of at most 53 bits. *)
Lemma projection_exact u s q :
  (0 <= u)%Z -> (0 <= s)%Z -> (0 < q <= 2 ^ 53)%Z -> (u + s <= 2 ^ 53)%Z ->
  Qgeb (fmul (fdiv (fadd (to_double (inject_Z u)) (to_double (inject_Z s)))
                (to_double (inject_Z q))) 100) 100 = true
  <-> (q <= u + s)%Z.
Proof.
  intros Hu Hs Hq Hsum.
  assert (Eu : to_double (inject_Z u) == inject_Z u) by (apply to_double_Z; lia).
  assert (Es : to_double (inject_Z s) == inject_Z s) by (apply to_double_Z; lia).
  assert (Eq : to_double (inject_Z q) == inject_Z q) by (apply to_double_Z; lia).
  assert (Ea : fadd (to_double (inject_Z u)) (to_double (inject_Z s))
               == inject_Z (u + s)).
  { unfold fadd.
    rewrite (to_double_comp _ (inject_Z (u + s)))
      by (rewrite Eu, Es, inject_Z_plus; reflexivity).
    apply to_double_Z. lia. }
  rewrite (fdiv_comp _ (inject_Z (u + s)) _ (inject_Z q) Ea Eq).
  unfold fdiv at 1. rewrite percent_reaches_100.
  fold (fdiv (inject_Z (u + s)) (inject_Z q)).
  rewrite Qgeb_true. apply quotient_reaches_1; lia.
Qed.

(** X8. For byte counts of at most 53 bits the projection of the source is
    exact: with integer usage, capacity and size, all at most 2^53 and
    their sum too, at a level that is not danger a request of positive size
    is allowed exactly when usage plus size is strictly below the
    capacity. *)
Theorem projection_exact_for_byte_counts (used size capacity : Z)
  (n : NotificationsApi) :
  (0 <= used)%Z -> (0 < size)%Z -> (0 < capacity <= 2 ^ 53)%Z ->
  (used + size <= 2 ^ 53)%Z ->
  exists r qi,
    canPerformStorageOperation (reporting (inject_Z used) (inject_Z capacity) n)
      (inject_Z size) = ([], Returns r)
    /\ quotaInfo r = Some qi
    /\ (level qi <> danger -> (allowed r = true <-> (used + size < capacity)%Z)).
Proof.
  intros Hu Hs Hq Hsum.
  assert (Q0 : ~ inject_Z capacity == 0).
  { intros C. change 0 with (inject_Z 0) in C. apply (proj1 (inject_Z_injective _ _)) in C.
    lia. }
  destruct (checkStorageQuota_reporting (inject_Z used) (inject_Z capacity) n Q0)
    as (qi & Hrun & U & Qq & _).
  destruct (canPerformStorageOperation_available _ _ _ (inject_Z size) Hrun)
    as (r & Hr & Hi & Ha).
  exists r, qi. split; [exact Hr|]. split; [exact Hi|]. intros Hl.
  apply Level_eqb_neq in Hl. rewrite Ha, Hl. cbn [negb andb].
  assert (Sp : Qgtb (to_double (inject_Z size)) 0 = true).
  { apply Qgtb_true. apply to_double_sign_pos.
    change 0 with (inject_Z 0). rewrite <- Zlt_Qlt. lia. }
  rewrite Sp. cbn [andb]. rewrite Qq.
  rewrite (Qgeb_Qeq _ (fmul (fdiv (fadd (to_double (inject_Z used))
                                     (to_double (inject_Z size)))
                               (to_double (inject_Z capacity))) 100) 100).
  - rewrite negb_true_iff, <- not_true_iff_false.
    rewrite (projection_exact used size capacity) by lia. lia.
  - apply Qeq_eq_bool_refl.
    apply fmul_comp; [|reflexivity]. apply Qeq_eq_bool_refl.
    apply fdiv_comp; [|reflexivity]. apply Qeq_eq_bool_refl.
    apply fadd_comp; [exact U | reflexivity].
Qed.

Lemma projection_exact_for_byte_counts_witness :
  exists r qi,
    canPerformStorageOperation (reporting (inject_Z 50) (inject_Z 100) NotificationsMissing)
      (inject_Z 50) = ([], Returns r)
    /\ quotaInfo r = Some qi
    /\ level qi = safe
    /\ allowed r = false.
Proof.
  destruct (projection_exact_for_byte_counts 50 50 100 NotificationsMissing)
    as (r & qi & Hr & Hi & Hiff); try lia.
  exists r, qi. split; [exact Hr|]. split; [exact Hi|].
  assert (Hl : level qi = safe).
  { vm_compute in Hr. injection Hr as <-. now injection Hi as <-. }
  split; [exact Hl|].
  apply not_true_iff_false. intros Ha.
  apply Hiff in Ha; [lia | rewrite Hl; discriminate].
Defined.

(** X16. Estimate and admission together, on byte counts of at most 53
    bits: for a record that serializes, with integer usage and capacity, at
    a level that is not danger the request with the estimated size is
    allowed exactly when the usage plus twice the length of the serialized
    form is strictly below the capacity. *)
Theorem estimate_then_admit (JsValue : Type)
  (JSON_stringify : JsValue -> outcome (option JsString)) (obj : JsValue)
  (jsonString : JsString) (used capacity : Z) (n : NotificationsApi) :
  JSON_stringify obj = Returns (Some jsonString) ->
  (0 <= used)%Z -> (0 < capacity <= 2 ^ 53)%Z ->
  (used + 2 * Z.of_nat (List.length jsonString) <= 2 ^ 53)%Z ->
  exists size r qi,
    estimateObjectSize JsValue JSON_stringify obj = ([], Returns size)
    /\ canPerformStorageOperation
         (reporting (inject_Z used) (inject_Z capacity) n) (inject_Z size)
       = ([], Returns r)
    /\ quotaInfo r = Some qi
    /\ (level qi <> danger ->
        (allowed r = true <->
         (used + 2 * Z.of_nat (List.length jsonString) < capacity)%Z)).
Proof.
  intros Hs Hu Hq Hsum.
  exists (Z.of_nat (List.length jsonString) * 2)%Z.
  assert (He : estimateObjectSize JsValue JSON_stringify obj
               = ([], Returns (Z.of_nat (List.length jsonString) * 2)%Z))
    by (unfold estimateObjectSize; rewrite Hs; reflexivity).
  destruct (Z.eq_dec (Z.of_nat (List.length jsonString)) 0) as [E0 | N0].
  - assert (Q0 : ~ inject_Z capacity == 0).
    { intros C. change 0 with (inject_Z 0) in C.
      apply (proj1 (inject_Z_injective _ _)) in C. lia. }
    destruct (checkStorageQuota_reporting (inject_Z used) (inject_Z capacity) n Q0)
      as (qi & Hrun & U & Qq & P & L & _).
    destruct (canPerformStorageOperation_available _ _ _
                (inject_Z (Z.of_nat (List.length jsonString) * 2)) Hrun)
      as (r & Hr & Hi & Ha).
    exists r, qi. split; [exact He|]. split; [exact Hr|]. split; [exact Hi|].
    intros Hl. rewrite Ha, E0. change (to_double (inject_Z (0 * 2))) with 0.
    apply Level_eqb_neq in Hl as Hl'. rewrite Hl'. cbn.
    split; [intros _ | reflexivity].
    apply Level_eqb_neq in Hl'. rewrite L in Hl'.
    apply not_danger_below in Hl'. rewrite P in Hl'.
    destruct (Z_lt_ge_dec (used + 2 * 0) capacity) as [C | C]; [exact C|]. exfalso.
    assert (F : 1 <= fdiv (inject_Z used) (inject_Z capacity))
      by (apply quotient_reaches_1; lia).
    assert (Eu : to_double (inject_Z used) == inject_Z used)
      by (apply to_double_Z; lia).
    assert (Eq : to_double (inject_Z capacity) == inject_Z capacity)
      by (apply to_double_Z; lia).
    rewrite (fdiv_comp _ (inject_Z used) _ (inject_Z capacity) Eu Eq) in Hl'.
    assert (G : 100 <= fmul (fdiv (inject_Z used) (inject_Z capacity)) 100)
      by (apply (to_double_ge 100); [reflexivity | lra]).
    lra.
  - destruct (projection_exact_for_byte_counts used
                (Z.of_nat (List.length jsonString) * 2) capacity n)
      as (r & qi & Hr & Hi & Hiff); try lia.
    exists r, qi. split; [exact He|]. split; [exact Hr|]. split; [exact Hi|].
    intros Hl. rewrite (Hiff Hl). lia.
Qed.

Lemma estimate_then_admit_witness :
  exists size r qi,
    estimateObjectSize SampleValue sample_stringify SampleArray = ([], Returns size)
    /\ canPerformStorageOperation
         (reporting (inject_Z 80) (inject_Z 100) NotificationsMissing) (inject_Z size)
       = ([], Returns r)
    /\ quotaInfo r = Some qi
    /\ allowed r = true.
Proof.
  destruct (estimate_then_admit SampleValue sample_stringify SampleArray
              (units_of "[1,2,3]") 80 100 NotificationsMissing eq_refl)
    as (size & r & qi & He & Hr & Hi & Hiff); try (simpl; lia).
  exists size, r, qi. split; [exact He|]. split; [exact Hr|]. split; [exact Hi|].
  assert (Hl : level qi = warning).
  { injection He as <-. vm_compute in Hr. injection Hr as <-. now injection Hi as <-. }
  apply Hiff; [rewrite Hl; discriminate | simpl; lia].
Defined.

(** ** Further properties of the monitor *)

(** X11. When the quota info is unavailable or its level is safe, the
    monitor adds no event of its own: no notification and no console
    output beyond what the check itself logged. *)
Theorem monitor_silent_when_safe (host : Host) (log : list event)
  (info : option QuotaInfo) :
  checkStorageQuota host = (log, Returns info) ->
  (forall qi, info = Some qi -> level qi = safe) ->
  monitorStorageQuota host = (log, Returns info)
  /\ notifications_in log = [].
Proof. exact (monitorStorageQuota_silent host log info). Qed.

Lemma monitor_silent_when_safe_witness :
  exists info,
    monitorStorageQuota (reporting 10 100 (NotificationsCreate (Returns tt)))
    = ([], Returns info).
Proof.
  eexists.
  apply (monitor_silent_when_safe
           (reporting 10 100 (NotificationsCreate (Returns tt))) [] _ eq_refl).
  intros qi H. injection H as <-. reflexivity.
Defined.

(** X12. At every level above safe the monitor puts the status message
    before the user: every event it logs carries the message of the quota
    info and there is at least one, the call of [create] or the console
    warning.  Without notification API the warning is logged in the run and
    the monitor returns the quota info; when the promise of [create]
    rejects, the monitor returns the quota info as well and the warning is
    logged by the detached handler, after the call. *)
Theorem warning_reaches_the_user (host : Host) (log : list event)
  (qi : QuotaInfo) :
  checkStorageQuota host = (log, Returns (Some qi)) ->
  level qi <> safe ->
  exists wlog out,
    monitorStorageQuota host = (wlog, out)
    /\ (exists ev, In ev wlog /\ carries (getStorageStatusMessage (Some qi)) ev)
    /\ (forall ev, In ev wlog -> carries (getStorageStatusMessage (Some qi)) ev)
    /\ (chrome_notifications host = NotificationsMissing ->
        out = Returns (Some qi)
        /\ wlog = [ConsoleWarn ("[Storage Monitor] "
                                  ++ getStorageStatusMessage (Some qi))])
    /\ (forall err, chrome_notifications host = NotificationsCreate (Throws err) ->
        out = Returns (Some qi)
        /\ In (Detached (ConsoleWarn ("[Storage Monitor] "
                                        ++ getStorageStatusMessage (Some qi))))
             wlog
        /\ ~ In (ConsoleWarn ("[Storage Monitor] "
                                ++ getStorageStatusMessage (Some qi))) wlog).
Proof.
  intros H Hl. rewrite (monitorStorageQuota_unfold host log qi H Hl). cbv zeta.
  destruct (chrome_notifications host) as [|[[]|err]| |err];
    eexists; eexists; (split; [reflexivity|]);
    (split; [eexists; split; [left; reflexivity | reflexivity]|]);
    (split; [intros ev [<- | [<- | []]] || intros ev [<- | []]; reflexivity|]);
    (split; [intros C; try discriminate C; split; reflexivity|]);
    intros e C; try discriminate C.
  split; [reflexivity|]. split; [right; left; reflexivity|].
  intros [D | [D | []]]; discriminate D.
Qed.

Lemma warning_reaches_the_user_witness :
  exists wlog qi,
    monitorStorageQuota (reporting 92 100 (NotificationsCreate (Throws (TypeError "denied"))))
    = (wlog, Returns (Some qi))
    /\ In (Detached (ConsoleWarn ("[Storage Monitor] "
                                    ++ getStorageStatusMessage (Some qi)))) wlog.
Proof.
  destruct (warning_reaches_the_user
              (reporting 92 100 (NotificationsCreate (Throws (TypeError "denied"))))
              [] _ eq_refl)
    as (wlog & out & Hm & _ & _ & _ & Hrej); [vm_compute; discriminate|].
  destruct (Hrej _ eq_refl) as (-> & Hin & _).
  exists wlog. eexists. split; [exact Hm | exact Hin].
Defined.

(** X13. One run of the monitor calls [chrome.notifications.create] at
    most once, and never without a notification API; the call it makes is
    for a quota info whose level is above safe, with the title
    'Storage Warning', the status message of that quota info, and priority
    2 at level danger and priority 1 at warning and critical. *)
Theorem at_most_one_notification (host : Host) :
  exists log out,
    monitorStorageQuota host = (log, out)
    /\ (notifications_in log = []
        \/ exists qi n,
            result (checkStorageQuota host) = Returns (Some qi)
            /\ level qi <> safe
            /\ notifications_in log = [n]
            /\ n_title n = "Storage Warning"%string
            /\ n_message n = getStorageStatusMessage (Some qi)
            /\ (level qi = danger -> n_priority n = 2%Z)
            /\ (level qi <> danger -> n_priority n = 1%Z))
    /\ (chrome_notifications host = NotificationsMissing ->
        notifications_in log = []).
Proof.
  destruct (checkStorageQuota_returns host) as (l & info & H).
  assert (Hsilent :
            (forall qi, info = Some qi -> level qi = safe) ->
            exists log out, monitorStorageQuota host = (log, out)
                            /\ notifications_in log = []).
  { intros Hs. exists l, (Returns info).
    exact (monitorStorageQuota_silent host l info H Hs). }
  assert (Hquiet :
            (forall qi, info = Some qi -> level qi = safe) ->
            exists log out,
              monitorStorageQuota host = (log, out)
              /\ (notifications_in log = []
                  \/ exists qi n,
                      result (checkStorageQuota host) = Returns (Some qi)
                      /\ level qi <> safe
                      /\ notifications_in log = [n]
                      /\ n_title n = "Storage Warning"%string
                      /\ n_message n = getStorageStatusMessage (Some qi)
                      /\ (level qi = danger -> n_priority n = 2%Z)
                      /\ (level qi <> danger -> n_priority n = 1%Z))
              /\ (chrome_notifications host = NotificationsMissing ->
                  notifications_in log = [])).
  { intros Hs. destruct (Hsilent Hs) as (log & out & Hm & Hn).
    exists log, out. split; [exact Hm|]. split; [now left | intros _; exact Hn]. }
  destruct info as [qi|]; [|apply Hquiet; discriminate].
  destruct (Level_eqb (level qi) safe) eqn:E.
  { apply Level_eqb_eq in E. apply Hquiet. intros qi' Hq. now injection Hq as <-. }
  apply Level_eqb_neq in E.
  rewrite (monitorStorageQuota_unfold host l qi H E). cbv zeta.
  assert (Hres : result (checkStorageQuota host) = Returns (Some qi))
    by now rewrite H.
  assert (Hprio :
            (level qi = danger ->
             (if Level_eqb (level qi) danger then 2 else 1)%Z = 2%Z)
            /\ (level qi <> danger ->
                (if Level_eqb (level qi) danger then 2 else 1)%Z = 1%Z)).
  { split.
    - intros ->. reflexivity.
    - intros Hd. apply Level_eqb_neq in Hd. now rewrite Hd. }
  destruct (chrome_notifications host) as [|[[]|err]| |err];
    eexists; eexists; (split; [reflexivity|]);
    (split; [|intros C; try discriminate C; reflexivity]);
    try (left; reflexivity);
    right; exists qi; eexists;
    (split; [exact Hres|]); (split; [exact E|]);
    (split; [reflexivity|]); (split; [reflexivity|]); (split; [reflexivity|]);
    exact Hprio.
Qed.

Lemma at_most_one_notification_witness :
  exists log out,
    monitorStorageQuota (reporting 97 100 NotificationsMissing) = (log, out)
    /\ notifications_in log = [].
Proof.
  destruct (at_most_one_notification (reporting 97 100 NotificationsMissing))
    as (log & out & Hm & _ & Hmiss).
  exists log, out. split; [exact Hm|]. apply Hmiss. reflexivity.
Defined.

(** X14. [showStorageWarning], called on any quota info, returns without
    an event exactly when there is no quota info or its level is safe; at
    every other level it emits at least one event. *)
Theorem showStorageWarning_silent_iff (host : Host) (info : option QuotaInfo) :
  (showStorageWarning host info = ([], Returns tt)
   <-> info = None \/ exists qi, info = Some qi /\ level qi = safe)
  /\ (events (showStorageWarning host info) = []
      <-> info = None \/ exists qi, info = Some qi /\ level qi = safe).
Proof.
  assert (Hs : info = None \/ (exists qi, info = Some qi /\ level qi = safe) ->
               showStorageWarning host info = ([], Returns tt))
    by apply showStorageWarning_silent.
  assert (Hl : events (showStorageWarning host info) = [] ->
               info = None \/ exists qi, info = Some qi /\ level qi = safe).
  { destruct info as [qi|]; [|now left]. intros H. right. exists qi.
    split; [reflexivity|].
    unfold showStorageWarning in H.
    destruct (Level_eqb (level qi) safe) eqn:E; [now apply Level_eqb_eq|].
    destruct (chrome_notifications host) as [|[[]|err]| |err]; discriminate H. }
  split; split.
  - intros H. apply Hl. now rewrite H.
  - exact Hs.
  - exact Hl.
  - intros H. now rewrite (Hs H).
Qed.

Lemma showStorageWarning_silent_iff_witness :
  events (showStorageWarning
            {| navigator_storage := StorageMissing;
               chrome_notifications := NotificationsCreateNoPromise |}
            (Some {| usage := 92; quota := 100; percentUsed := 92;
                     level := critical; usageMB := "0.00"; quotaMB := "0.00" |}))
  <> [].
Proof.
  intros E.
  apply (proj1 (proj2 (showStorageWarning_silent_iff _ _))) in E.
  destruct E as [C | (qi & Hq & Hs)]; [discriminate C|].
  injection Hq as <-. discriminate Hs.
Defined.

(** X17. The monitor throws exactly when the quota info has a level above
    safe and the call of [create] fails in the call itself (it throws or
    returns no promise); in every other case it returns what
    [checkStorageQuota] returns, in particular whenever the estimate is
    unavailable or fails, and whenever [create] returns a promise, also
    one that rejects. *)
Theorem monitorStorageQuota_raises_iff (host : Host) :
  ((exists log err, monitorStorageQuota host = (log, Throws err))
   <-> exists qi,
        result (checkStorageQuota host) = Returns (Some qi)
        /\ level qi <> safe
        /\ create_fails_in_call (chrome_notifications host))
  /\ ((forall log err, monitorStorageQuota host <> (log, Throws err)) ->
      result (monitorStorageQuota host) = result (checkStorageQuota host)).
Proof.
  destruct (checkStorageQuota_returns host) as (l & info & H).
  assert (Hsilent : (forall qi, info = Some qi -> level qi = safe) ->
                    monitorStorageQuota host = (l, Returns info)).
  { intros Hs. exact (proj1 (monitorStorageQuota_silent host l info H Hs)). }
  assert (Hres : result (checkStorageQuota host) = Returns info) by now rewrite H.
  rewrite Hres.
  assert (Hcase :
            (forall qi, info = Some qi -> level qi = safe)
            \/ exists qi, info = Some qi /\ level qi <> safe).
  { destruct info as [qi|]; [|left; discriminate].
    destruct (Level_eqb (level qi) safe) eqn:E.
    - left. intros qi' Hq. injection Hq as <-. now apply Level_eqb_eq.
    - right. exists qi. split; [reflexivity | now apply Level_eqb_neq]. }
  destruct Hcase as [Hs | (qi & -> & Hl)].
  - rewrite (Hsilent Hs). split; [|reflexivity]. split.
    + intros (log & err & C). discriminate C.
    + intros (qi & Hq & Hl & _). injection Hq as ->. now specialize (Hs qi eq_refl).
  - rewrite (monitorStorageQuota_unfold host l qi H Hl). cbv zeta.
    destruct (chrome_notifications host) as [|[[]|err]| |err]; simpl.
    + split; [|reflexivity]. split; [intros (? & ? & C); discriminate C|].
      intros (? & _ & _ & []).
    + split; [|reflexivity]. split; [intros (? & ? & C); discriminate C|].
      intros (? & _ & _ & []).
    + split; [|reflexivity]. split; [intros (? & ? & C); discriminate C|].
      intros (? & _ & _ & []).
    + split.
      * split; [intros _; exists qi; auto | intros _; eauto].
      * intros C. exfalso. eapply C. reflexivity.
    + split.
      * split; [intros _; exists qi; auto | intros _; eauto].
      * intros C. exfalso. eapply C. reflexivity.
Qed.

Lemma monitorStorageQuota_raises_iff_witness :
  exists log err,
    monitorStorageQuota
      (reporting 99 100 (NotificationsCreateThrows (TypeError "Extension context invalidated.")))
    = (log, Throws err).
Proof.
  apply (proj1 (monitorStorageQuota_raises_iff
                  (reporting 99 100
                     (NotificationsCreateThrows
                        (TypeError "Extension context invalidated."))))).
  eexists. split; [vm_compute; reflexivity|]. split; [discriminate | exact I].
Defined.

(** ** Further properties of the size estimate *)

(** X15. [estimateObjectSize] never throws whatever [JSON.stringify] does;
    its result is an even number that is not negative; and it logs an
    error exactly when the serialization yields no string. *)
Theorem estimateObjectSize_total (JsValue : Type)
  (JSON_stringify : JsValue -> outcome (option JsString)) (obj : JsValue) :
  exists log size,
    estimateObjectSize JsValue JSON_stringify obj = (log, Returns size)
    /\ (0 <= size)%Z /\ Z.even size = true
    /\ (log = [] <-> exists s, JSON_stringify obj = Returns (Some s)).
Proof.
  unfold estimateObjectSize.
  destruct (JSON_stringify obj) as [[s|]|err].
  - eexists. eexists. split; [reflexivity|]. split; [lia|].
    split; [rewrite Z.mul_comm; apply Z.even_mul; reflexivity|].
    split; [eauto | reflexivity].
  - eexists. eexists. split; [reflexivity|]. split; [lia|].
    split; [reflexivity|]. split; [discriminate|]. intros [s C]. discriminate.
  - eexists. eexists. split; [reflexivity|]. split; [lia|].
    split; [reflexivity|]. split; [discriminate|]. intros [s C]. discriminate.
Qed.

Lemma estimateObjectSize_total_witness :
  exists size,
    estimateObjectSize SampleValue sample_stringify SampleArray
    = ([], Returns size)
    /\ Z.even size = true.
Proof.
  destruct (estimateObjectSize_total SampleValue sample_stringify SampleArray)
    as (log & size & He & _ & Hev & Hlog).
  exists size. split; [|exact Hev].
  rewrite He. f_equal. apply Hlog. eexists. reflexivity.
Defined.
